(** * pr-dashboard: the fetch, normalise, filter and group pipeline

  A shallow embedding of the TypeScript sources of the dashboard:
  - [app/types/index.ts]            record normaliser ([transformPullRequest], [transformLabel]);
  - [app/lib/github.ts]             the [GitHubClient] (rate-limit bookkeeping, multi-repository fan-out);
  - [app/api/github/*/route.ts]     repository-list parsing and label aggregation;
  - [app/hooks/usePullRequests.ts]  the client-side filter;
  - [app/components/GroupedPRDisplay.tsx] grouping by label.

  JavaScript values are modelled as follows: a [number] that holds an
  integer is a [Z], a number that may be [NaN] is a [JSNum]; a string is a
  [string] of bytes; [T | undefined] and [T | null] are [option T]; arrays
  are lists; a [Map] is an association list in insertion order. *)

From Stdlib Require Import ZArith Ascii String.
From stdpp Require Import base option list strings gmap sorting pretty.

Local Open Scope string_scope.
Local Open Scope list_scope.
Local Open Scope Z_scope.

(** ** JavaScript primitives used by the sources *)
Module JS.

(** Numbers as produced by [Number.parseInt] and arithmetic on them. *)
Inductive JSNum : Type :=
| NaN : JSNum
| Num : Z -> JSNum.

(** [ToBoolean] on the values the sources test. *)
Definition truthy_string (s : string) : bool :=
  match s with EmptyString => false | String _ _ => true end.

Definition truthy_opt_string (s : option string) : bool :=
  match s with None => false | Some s => truthy_string s end.

Definition truthy_num (n : JSNum) : bool :=
  match n with NaN => false | Num z => negb (z =? 0) end.

(** Template-literal conversion of a possibly undefined string. *)
Definition template (s : option string) : string :=
  match s with None => "undefined" | Some s => s end.

(** [s.startsWith(p)] *)
Definition startsWith (s p : string) : bool := String.prefix p s.

(** [s.includes(sub)] *)
Fixpoint includes (s sub : string) : bool :=
  String.prefix sub s
  || match s with
     | EmptyString => false
     | String _ s' => includes s' sub
     end.

(** [s.split(sep)] for a one-character separator: never the empty array. *)
Fixpoint split (sep : ascii) (s : string) : list string :=
  match s with
  | EmptyString => [EmptyString]
  | String c s' =>
      if Ascii.eqb c sep then EmptyString :: split sep s'
      else match split sep s' with
           | [] => [String c EmptyString]
           | h :: t => String c h :: t
           end
  end.

(** White space removed by [trim] (the ASCII part of it). *)
Definition is_space (c : ascii) : bool :=
  let n := nat_of_ascii c in
  (Nat.eqb n 32 || (Nat.leb 9 n && Nat.leb n 13))%bool.

Fixpoint trimStart (s : string) : string :=
  match s with
  | EmptyString => EmptyString
  | String c s' => if is_space c then trimStart s' else s
  end.

Fixpoint trimEnd (s : string) : string :=
  match s with
  | EmptyString => EmptyString
  | String c s' =>
      match trimEnd s' with
      | EmptyString => if is_space c then EmptyString else String c EmptyString
      | r => String c r
      end
  end.

Definition trim (s : string) : string := trimEnd (trimStart s).

(** [s.toLowerCase()] folds every cased letter of Unicode, by the tables
    of the runtime; the code that calls it takes it as a parameter below.
    On a string of ASCII characters it computes [toLowerCase_ascii], which
    the sample records, all ASCII, are run with. *)
Definition lower_ascii (c : ascii) : ascii :=
  let n := nat_of_ascii c in
  if (Nat.leb 65 n && Nat.leb n 90)%bool then ascii_of_nat (n + 32) else c.

Fixpoint toLowerCase_ascii (s : string) : string :=
  match s with
  | EmptyString => EmptyString
  | String c s' => String (lower_ascii c) (toLowerCase_ascii s')
  end.

(** [n.toString()] for an integer-valued number. *)
Definition toString (n : Z) : string := pretty n.

(** A [Date] is its time value in milliseconds; [None] is an invalid date. *)
Record Date : Type := mkDate { getTime : option Z }.

(** [a < b] and [a > b] on dates: both sides convert to numbers and a
    comparison with [NaN] is false. *)
Definition date_lt (a b : Date) : bool :=
  match getTime a, getTime b with
  | Some x, Some y => x <? y
  | _, _ => false
  end.

Definition date_gt (a b : Date) : bool := date_lt b a.

End JS.

(** ** Wire types ([app/types/github.ts]) *)
Module GitHub.

Record GitHubUser : Type := {
  login : string;
  user_id : Z;
  avatar_url : string;
  user_html_url : string;
  user_type : string
}.

Record GitHubLabel : Type := {
  label_id : Z;
  label_node_id : string;
  label_url : string;
  label_name : string;
  label_color : string;
  label_default : bool;
  label_description : option string
}.

Record GitHubRepository : Type := {
  repo_id : Z;
  repo_node_id : string;
  repo_name : string;
  full_name : string;
  repo_owner : GitHubUser;
  private : bool;
  repo_html_url : string;
  repo_description : option string;
  fork : bool;
  repo_url : string;
  default_branch : string;
  open_issues_count : Z;
  repo_updated_at : string
}.

Inductive RawState : Type := raw_open | raw_closed.

Record Branch : Type := {
  branch_label : string;
  ref : string;
  sha : string;
  branch_user : GitHubUser;
  branch_repo : GitHubRepository
}.

Record GitHubPullRequest : Type := {
  id : Z;
  node_id : string;
  number : Z;
  state : RawState;
  locked : bool;
  title : string;
  user : GitHubUser;
  body : option string;
  created_at : string;
  updated_at : string;
  closed_at : option string;
  merged_at : option string;
  merge_commit_sha : option string;
  assignee : option GitHubUser;
  assignees : list GitHubUser;
  requested_reviewers : list GitHubUser;
  labels : list GitHubLabel;
  draft : bool;
  head : Branch;
  base : Branch;
  html_url : string;
  comments : Z;
  review_comments : Z;
  commits : Z;
  additions : Z;
  deletions : Z;
  changed_files : Z
}.

(** The error body of the remote API; a field the JSON lacks is [None]. *)
Record GitHubAPIErrorBody : Type := {
  err_message : option string;
  documentation_url : option string;
  err_status : option Z
}.

End GitHub.

(** ** Application types and the normaliser ([app/types/index.ts]) *)
Module Types.
Import JS.

Inductive PRState : Type := st_open | st_closed | st_merged | st_draft.

#[export] Instance PRState_eq_dec : EqDecision PRState.
Proof. solve_decision. Defined.

(** The upcast of the wire state into ['open' | 'closed' | 'merged' | 'draft']. *)
Definition of_raw (s : GitHub.RawState) : PRState :=
  match s with GitHub.raw_open => st_open | GitHub.raw_closed => st_closed end.

Record Label : Type := {
  label_id : Z;
  name : string;
  color : string;
  description : option string
}.

Record Author : Type := {
  login : string;
  avatarUrl : string;
  author_url : string
}.

Record RepoInfo : Type := {
  repo_name : string;
  fullName : string;
  owner : string
}.

Record PullRequest : Type := {
  id : Z;
  number : Z;
  title : string;
  state : PRState;
  author : Author;
  repository : RepoInfo;
  labels : list Label;
  assignees : list string;
  reviewers : list string;
  createdAt : Date;
  updatedAt : Date;
  closedAt : option Date;
  mergedAt : option Date;
  url : string;
  comments : Z;
  reviewComments : Z;
  additions : Z;
  deletions : Z;
  changedFiles : Z;
  isDraft : bool;
  isApproved : bool
}.

Record FilterOptions : Type := {
  f_repositories : option (list string);
  f_labels : option (list string);
  f_states : option (list PRState);
  f_assignees : option (list string);
  f_authors : option (list string);
  f_reviewers : option (list string);
  f_searchQuery : option string;
  f_dateFrom : option Date;
  f_dateTo : option Date
}.

Definition transformLabel (label : GitHub.GitHubLabel) : Label :=
  {| label_id := GitHub.label_id label;
     name := GitHub.label_name label;
     color := GitHub.label_color label;
     description := GitHub.label_description label |}.

Section Normaliser.
(** [new Date(s)] for a string [s]: the date parser of the runtime. *)
Variable Date_parse : string -> option Z.

Definition new_Date (s : string) : Date := mkDate (Date_parse s).

Definition opt_Date (s : option string) : option Date :=
  match s with
  | Some s => if truthy_string s then Some (new_Date s) else None
  | None => None
  end.

Definition transformPullRequest (pr : GitHub.GitHubPullRequest) : PullRequest :=
  let isMerged := truthy_opt_string (GitHub.merged_at pr) in
  let isDraft := GitHub.draft pr in
  let state :=
    if isDraft then st_draft
    else if isMerged then st_merged
    else of_raw (GitHub.state pr) in
  {| id := GitHub.id pr;
     number := GitHub.number pr;
     title := GitHub.title pr;
     state := state;
     author := {| login := GitHub.login (GitHub.user pr);
                  avatarUrl := GitHub.avatar_url (GitHub.user pr);
                  author_url := GitHub.user_html_url (GitHub.user pr) |};
     repository :=
       {| repo_name := GitHub.repo_name (GitHub.branch_repo (GitHub.base pr));
          fullName := GitHub.full_name (GitHub.branch_repo (GitHub.base pr));
          owner := GitHub.login (GitHub.repo_owner (GitHub.branch_repo (GitHub.base pr))) |};
     labels := map transformLabel (GitHub.labels pr);
     assignees := map GitHub.login (GitHub.assignees pr);
     reviewers := map GitHub.login (GitHub.requested_reviewers pr);
     createdAt := new_Date (GitHub.created_at pr);
     updatedAt := new_Date (GitHub.updated_at pr);
     closedAt := opt_Date (GitHub.closed_at pr);
     mergedAt := opt_Date (GitHub.merged_at pr);
     url := GitHub.html_url pr;
     comments := GitHub.comments pr;
     reviewComments := GitHub.review_comments pr;
     additions := GitHub.additions pr;
     deletions := GitHub.deletions pr;
     changedFiles := GitHub.changed_files pr;
     isDraft := isDraft;
     isApproved := false |}.
End Normaliser.

End Types.


(** ** Promises, as far as the client uses them *)
Module Async.

Inductive Exception : Type :=
| GitHubAPIError (message : string) (status : option Z)
                 (response : option GitHub.GitHubAPIErrorBody)
| Error (message : string)
| RangeError
| TypeError
| SyntaxError.

(** The state a promise ends in. *)
Inductive Settled (A : Type) : Type :=
| Fulfilled (value : A)
| Rejected (reason : Exception).
Arguments Fulfilled {A} value.
Arguments Rejected {A} reason.

Definition is_fulfilled {A} (r : Settled A) : bool :=
  match r with Fulfilled _ => true | Rejected _ => false end.

(** A promise that settles: the instant it does, and how. *)
Record Promise (A : Type) : Type := mkPromise {
  settles_at : nat;
  outcome : Settled A
}.
Arguments mkPromise {A} settles_at outcome.
Arguments settles_at {A} p.
Arguments outcome {A} p.

(** [const x = await p; return f(x)] inside an async function. *)
Definition await_then {A B} (p : Promise A) (f : A -> Settled B) : Promise B :=
  mkPromise (settles_at p)
    (match outcome p with
     | Fulfilled a => f a
     | Rejected e => Rejected e
     end).

(** The order in which the promises of an array settle: earlier instants
    first, array order among promises settling at the same instant. *)
Definition settles_before {A} (x y : nat * Promise A) : Prop :=
  (settles_at (snd x) <= settles_at (snd y))%nat.

#[export] Instance settles_before_dec {A} (x y : nat * Promise A) :
  Decision (settles_before x y).
Proof. unfold settles_before. apply _. Defined.

Definition completion_order {A} (ps : list (Promise A)) : list (nat * Promise A) :=
  merge_sort settles_before (zip (seq 0 (length ps)) ps).

(** The reaction [Promise.allSettled] attaches to element [i]: it stores
    the settled state at index [i] of the shared [values] array. The array
    has one slot per promise, so [i] is always within it. *)
Definition store_settled {A} (values : list (option (Settled A)))
    (ip : nat * Promise A) : list (option (Settled A)) :=
  <[fst ip := Some (outcome (snd ip))]> values.

(** [Promise.allSettled(ps)]: the reactions run in completion order over
    an array of [length ps] slots, and the array is the fulfilment value
    once the last promise has settled. *)
Definition allSettled {A} (ps : list (Promise A)) : Promise (list (option (Settled A))) :=
  mkPromise (foldr (fun p t => Nat.max (settles_at p) t) 0%nat ps)
    (Fulfilled (foldl store_settled (replicate (length ps) None) (completion_order ps))).

(** [results.filter((result) => result.status === 'fulfilled')]: reading
    [status] off an empty slot is a [TypeError]. *)
Fixpoint filter_fulfilled {A} (results : list (option (Settled A)))
  : Settled (list (Settled A)) :=
  match results with
  | [] => Fulfilled []
  | None :: _ => Rejected TypeError
  | Some r :: rest =>
      match filter_fulfilled rest with
      | Fulfilled kept => Fulfilled (if is_fulfilled r then r :: kept else kept)
      | Rejected e => Rejected e
      end
  end.

(** [.map((result) => result.value)] on what the filter kept, all of
    which is fulfilled. *)
Definition values_of {A} (results : list (Settled A)) : list A :=
  omap (fun r => match r with Fulfilled v => Some v | Rejected _ => None end) results.

End Async.


(** ** Dates and integers of the runtime that the client formats and parses *)
Module Runtime.
Import JS.

Definition digit_of (c : ascii) : option Z :=
  let n := nat_of_ascii c in
  if (Nat.leb 48 n && Nat.leb n 57)%bool then Some (Z.of_nat n - 48) else None.

Fixpoint parse_digits (s : string) (acc : option Z) : option Z :=
  match s with
  | EmptyString => acc
  | String c s' =>
      match digit_of c with
      | Some d => parse_digits s' (Some (10 * default 0 acc + d))
      | None => acc
      end
  end.

(** [Number.parseInt(s, 10)]: leading white space, an optional sign, then
    the longest run of decimal digits; [NaN] when there is no digit. *)
Definition parseInt (s : string) : JSNum :=
  let s := trimStart s in
  let '(sign, digits) :=
    match s with
    | String "-"%char s' => (-1, s')
    | String "+"%char s' => (1, s')
    | _ => (1, s)
    end in
  match parse_digits digits None with
  | Some n => Num (sign * n)
  | None => NaN
  end.

(** [x * k] for a number [x] and an integer constant [k]. *)
Definition times (x : JSNum) (k : Z) : JSNum :=
  match x with NaN => NaN | Num z => Num (z * k) end.

(** Decimal digits of [n], padded with zeros on the left to [width]. *)
Fixpoint zeros (n : nat) : string :=
  match n with
  | O => EmptyString
  | S n' => String "0"%char (zeros n')
  end.

Definition pad (width : nat) (n : Z) : string :=
  let s := pretty (Z.to_N n) in
  zeros (width - String.length s) +:+ s.

(** Year, month and day of the day number [days] (days since 1970-01-01)
    in the proleptic Gregorian calendar. *)
Definition civil_from_days (days : Z) : Z * Z * Z :=
  let z := days + 719468 in
  let era := z / 146097 in
  let doe := z - era * 146097 in
  let yoe := (doe - doe / 1460 + doe / 36524 - doe / 146096) / 365 in
  let doy := doe - (365 * yoe + yoe / 4 - yoe / 100) in
  let mp := (5 * doy + 2) / 153 in
  let d := doy - (153 * mp + 2) / 5 + 1 in
  let m := if mp <? 10 then mp + 3 else mp - 9 in
  let y := yoe + era * 400 + (if m <=? 2 then 1 else 0) in
  (y, m, d).

(** The largest time value of a [Date]. *)
Definition max_time : Z := 8640000000000000.

(** [new Date(t).toISOString()]; [None] is the [RangeError] of an invalid
    time value. *)
Definition toISOString (t : Z) : option string :=
  if (- max_time <=? t) && (t <=? max_time) then
    let days := t / 86400000 in
    let ms := t mod 86400000 in
    let '(y, m, d) := civil_from_days days in
    let year :=
      if (0 <=? y) && (y <=? 9999) then pad 4 y
      else (if y <? 0 then "-" else "+") +:+ pad 6 (Z.abs y) in
    Some (year +:+ "-" +:+ pad 2 m +:+ "-" +:+ pad 2 d +:+ "T"
          +:+ pad 2 (ms / 3600000) +:+ ":" +:+ pad 2 (ms / 60000 mod 60) +:+ ":"
          +:+ pad 2 (ms / 1000 mod 60) +:+ "." +:+ pad 3 (ms mod 1000) +:+ "Z")
  else None.

End Runtime.


(** ** The remote API client ([app/lib/github.ts]) *)
Module Client.
Import JS Async Runtime.

Record GitHubClientOptions : Type := {
  opt_token : string;
  opt_baseUrl : option string
}.

(** The private fields of a [GitHubClient] instance. *)
Record GitHubClient : Type := mkClient {
  token : string;
  baseUrl : string;
  rateLimitRemaining : option JSNum;
  rateLimitReset : option JSNum
}.

Definition new_GitHubClient (options : GitHubClientOptions) : GitHubClient :=
  {| token := opt_token options;
     baseUrl := if truthy_opt_string (opt_baseUrl options)
                then default EmptyString (opt_baseUrl options)
                else "https://api.github.com";
     rateLimitRemaining := None;
     rateLimitReset := None |}.

Definition createGitHubClient (token : string) : Settled GitHubClient :=
  if negb (truthy_string token) then Rejected (Error "GitHub token is required")
  else Fulfilled (new_GitHubClient {| opt_token := token; opt_baseUrl := None |}).

(** An object literal as its own properties in insertion order; a
    property set again keeps its place and takes the new value. *)
Fixpoint set_property (k v : string) (o : list (string * string)) : list (string * string) :=
  match o with
  | [] => [(k, v)]
  | (k', v') :: o' => if String.eqb k k' then (k, v) :: o' else (k', v') :: set_property k v o'
  end.

Definition spread (o extra : list (string * string)) : list (string * string) :=
  foldl (fun acc kv => set_property (fst kv) (snd kv) acc) o extra.

Record RequestInit : Type := { init_headers : list (string * string) }.

Record Request : Type := {
  url : string;
  headers : list (string * string)
}.

(** What the global [fetch] resolves with. The parsed body is kept under
    both readings the client makes of it; [None] is a body that is not JSON. *)
Record Json (T : Type) : Type := {
  as_error : GitHub.GitHubAPIErrorBody;
  as_data : T
}.
Arguments as_error {T} j.
Arguments as_data {T} j.

Record Response (T : Type) : Type := {
  ok : bool;
  status : Z;
  statusText : string;
  response_headers : gmap string string;
  json : option (Json T)
}.
Arguments ok {T} r.
Arguments status {T} r.
Arguments statusText {T} r.
Arguments response_headers {T} r.
Arguments json {T} r.

(** The environment of one call of the client: the readings [Date.now()]
    returns, in order; the remote side, which answers a request or fails at
    the network level; and the requests sent so far. *)
Record World (T : Type) : Type := mkWorld {
  clock : nat -> N;
  reads : nat;
  remote : list Request -> Request -> Settled (Response T);
  sent : list Request
}.
Arguments mkWorld {T} clock reads remote sent.
Arguments clock {T} w.
Arguments reads {T} w.
Arguments remote {T} w.
Arguments sent {T} w.

Definition Date_now {T} (w : World T) : Z * World T :=
  (Z.of_N (clock w (reads w)), mkWorld (clock w) (S (reads w)) (remote w) (sent w)).

Definition global_fetch {T} (req : Request) (w : World T) : Settled (Response T) * World T :=
  (remote w (sent w) req, mkWorld (clock w) (reads w) (remote w) (sent w ++ [req])).

(** The guard at the head of [fetch]: [Some e] is the exception thrown. *)
Definition check_rate_limit {T} (c : GitHubClient) (w : World T) : option Exception * World T :=
  match rateLimitRemaining c with
  | Some (Num 0) =>
      let '(resetTime, w1) :=
        match rateLimitReset c with
        | Some (Num r) => if truthy_num (Num r) then (r, w) else Date_now w
        | _ => Date_now w
        end in
      let '(now, w2) := Date_now w1 in
      let waitTime := resetTime - now in
      if 0 <? waitTime then
        (Some match toISOString resetTime with
              | Some iso => GitHubAPIError ("Rate limit exceeded. Resets at " +:+ iso) (Some 429) None
              | None => RangeError
              end, w2)
      else (None, w2)
  | _ => (None, w)
  end.

(** The two assignments that follow the response. *)
Definition update_rate_limit {T} (c : GitHubClient) (response : Response T) : GitHubClient :=
  let rateLimitRemaining' := response_headers response !! "x-ratelimit-remaining" in
  let rateLimitReset' := response_headers response !! "x-ratelimit-reset" in
  let c1 :=
    if truthy_opt_string rateLimitRemaining'
    then mkClient (token c) (baseUrl c)
           (Some (parseInt (default EmptyString rateLimitRemaining'))) (rateLimitReset c)
    else c in
  if truthy_opt_string rateLimitReset'
  then mkClient (token c1) (baseUrl c1) (rateLimitRemaining c1)
         (Some (times (parseInt (default EmptyString rateLimitReset')) 1000))
  else c1.

(** The URL and the headers [fetch] passes to the global [fetch]. *)
Definition request_of (c : GitHubClient) (endpoint : string) (options : RequestInit) : Request :=
  let url := if startsWith endpoint "http" then endpoint else baseUrl c +:+ endpoint in
  {| url := url;
     headers := spread [("Authorization", "Bearer " +:+ token c);
                        ("Accept", "application/vnd.github.v3+json");
                        ("Content-Type", "application/json")]
                       (init_headers options) |}.

(** [private async fetch<T>(endpoint, options)]: the settled state of the
    promise, the client after the call and the world after the call. *)
Definition fetch {T} (c : GitHubClient) (endpoint : string) (options : RequestInit)
    (w : World T) : Settled T * GitHubClient * World T :=
  match check_rate_limit c w with
  | (Some e, w1) => (Rejected e, c, w1)
  | (None, w1) =>
      match global_fetch (request_of c endpoint options) w1 with
      | (Rejected e, w2) => (Rejected e, c, w2)
      | (Fulfilled response, w2) =>
          let c' := update_rate_limit c response in
          if negb (ok response) then
            let error :=
              match json response with
              | Some j => as_error j
              | None => {| GitHub.err_message := Some (statusText response);
                           GitHub.documentation_url := None;
                           GitHub.err_status := None |}
              end in
            (Rejected (GitHubAPIError
                         (if truthy_opt_string (GitHub.err_message error)
                          then default EmptyString (GitHub.err_message error)
                          else "GitHub API request failed")
                         (Some (status response)) (Some error)), c', w2)
          else
            match json response with
            | Some j => (Fulfilled (as_data j), c', w2)
            | None => (Rejected SyntaxError, c', w2)
            end
      end
  end.

(** The argument and result types of the multi-repository operations. A
    field of a ref is [None] when the caller left it [undefined]. *)
Record RepositoryRef : Type := {
  owner : option string;
  repo : option string
}.

Record FetchPullRequestsOptions : Type := {
  opt_state : option string;
  opt_sort : option string;
  opt_direction : option string;
  perPage : option Z;
  page : option Z
}.

Record RepoPullRequests : Type := {
  pr_repository : string;
  pullRequests : list GitHub.GitHubPullRequest
}.

Record RepoLabels : Type := {
  lb_repository : string;
  labels : list GitHub.GitHubLabel
}.

(** [`${owner}/${repo}`] *)
Definition ref_name (r : RepositoryRef) : string :=
  template (owner r) +:+ "/" +:+ template (repo r).

Section FanOut.

(** The single-repository operations the fan-out calls. The first argument
    is the position of the call among those the fan-out issues, so that two
    calls with equal arguments may end differently. *)
Variable getPullRequests :
  nat -> option string -> option string -> FetchPullRequestsOptions ->
  Promise (list GitHub.GitHubPullRequest).
Variable getLabels :
  nat -> option string -> option string -> Promise (list GitHub.GitHubLabel).

Definition getPullRequestsForRepositories (repositories : list RepositoryRef)
    (options : FetchPullRequestsOptions) : Promise (list RepoPullRequests) :=
  let results :=
    allSettled
      (imap (fun i r =>
               await_then (getPullRequests i (owner r) (repo r) options)
                 (fun pullRequests =>
                    Fulfilled {| pr_repository := ref_name r;
                                 pullRequests := pullRequests |}))
            repositories) in
  await_then results
    (fun results =>
       match filter_fulfilled results with
       | Fulfilled kept => Fulfilled (values_of kept)
       | Rejected e => Rejected e
       end).

Definition getLabelsForRepositories (repositories : list RepositoryRef)
  : Promise (list RepoLabels) :=
  let results :=
    allSettled
      (imap (fun i r =>
               await_then (getLabels i (owner r) (repo r))
                 (fun labels =>
                    Fulfilled {| lb_repository := ref_name r; labels := labels |}))
            repositories) in
  await_then results
    (fun results =>
       match filter_fulfilled results with
       | Fulfilled kept => Fulfilled (values_of kept)
       | Rejected e => Rejected e
       end).

End FanOut.

End Client.


(** ** The route handlers ([app/api/github/pulls/route.ts], [.../labels/route.ts]) *)
Module Routes.
Import JS Async Client.

(** [repositories.split(',').map(...)]: the [repoList] of both handlers. *)
Definition repoList (repositories : string) : list RepositoryRef :=
  map (fun repo =>
         let parts := split "/"%char (trim repo) in
         {| owner := parts !! 0%nat; repo := parts !! 1%nat |})
      (split ","%char repositories).

(** A [Map<string, Label>]: its entries in insertion order. *)
Definition LabelMap : Type := list (string * Types.Label).

Definition Map_has (m : LabelMap) (k : string) : bool :=
  existsb (fun kv => String.eqb (fst kv) k) m.

Fixpoint Map_set (m : LabelMap) (k : string) (v : Types.Label) : LabelMap :=
  match m with
  | [] => [(k, v)]
  | (k', v') :: m' => if String.eqb k' k then (k, v) :: m' else (k', v') :: Map_set m' k v
  end.

Definition Map_values (m : LabelMap) : list Types.Label := map snd m.

(** The body of the inner loop. *)
Definition add_label (labelMap : LabelMap) (label : GitHub.GitHubLabel) : LabelMap :=
  let transformedLabel := Types.transformLabel label in
  if negb (Map_has labelMap (Types.name transformedLabel))
  then Map_set labelMap (Types.name transformedLabel) transformedLabel
  else labelMap.

(** The two nested loops and [Array.from(labelMap.values())]. *)
Definition uniqueLabels (results : list RepoLabels) : list Types.Label :=
  let labelMap :=
    foldl (fun m result => foldl add_label m (labels result)) [] results in
  Map_values labelMap.

(** [raw] is the first label named [k] in iteration order ([flat] lists the
    labels of all repository results one after the other), and [v] is its
    normal form. *)
Definition first_named (flat : list GitHub.GitHubLabel) (k : string) (v : Types.Label) : Prop :=
  exists (i : nat) (raw : GitHub.GitHubLabel),
    flat !! i = Some raw
    /\ k = GitHub.label_name raw
    /\ v = Types.transformLabel raw
    /\ forall (j : nat) (raw' : GitHub.GitHubLabel),
         (j < i)%nat -> flat !! j = Some raw' -> GitHub.label_name raw' <> k.

End Routes.


(** ** The client-side filter ([app/hooks/usePullRequests.ts]) *)
Module Hooks.
Import JS Types.

(** [xs.includes(x)] on an array. *)
Definition array_includes {A} `{EqDecision A} (xs : list A) (x : A) : bool :=
  bool_decide (x ∈ xs).

(** [field && field.length > 0] *)
Definition constrains {A} (field : option (list A)) : bool :=
  match field with
  | Some xs => (0 <? length xs)%nat
  | None => false
  end.

Definition entries {A} (field : option (list A)) : list A := default [] field.

(** The callback of [pullRequests.filter] returns [false] at the first of
    its nine [if] blocks whose test holds, and [true] after the last. Each
    block is one check here, true when the block does not return. *)
Definition passes_states (filters : FilterOptions) (pr : PullRequest) : bool :=
  negb (constrains (f_states filters)
        && negb (array_includes (entries (f_states filters)) (state pr))).

Definition passes_repositories (filters : FilterOptions) (pr : PullRequest) : bool :=
  negb (constrains (f_repositories filters)
        && negb (array_includes (entries (f_repositories filters))
                   (fullName (repository pr)))).

Definition passes_labels (filters : FilterOptions) (pr : PullRequest) : bool :=
  negb (constrains (f_labels filters)
        && negb (let prLabelNames := map name (labels pr) in
                 existsb (fun filterLabel => array_includes prLabelNames filterLabel)
                   (entries (f_labels filters)))).

Definition passes_assignees (filters : FilterOptions) (pr : PullRequest) : bool :=
  negb (constrains (f_assignees filters)
        && negb (existsb (fun assignee => array_includes (assignees pr) assignee)
                   (entries (f_assignees filters)))).

Definition passes_authors (filters : FilterOptions) (pr : PullRequest) : bool :=
  negb (constrains (f_authors filters)
        && negb (array_includes (entries (f_authors filters)) (login (author pr)))).

Definition passes_reviewers (filters : FilterOptions) (pr : PullRequest) : bool :=
  negb (constrains (f_reviewers filters)
        && negb (existsb (fun reviewer => array_includes (reviewers pr) reviewer)
                   (entries (f_reviewers filters)))).

Section Search.
(** [String.prototype.toLowerCase], the runtime's. *)
Variable toLowerCase : string -> string.

Definition passes_searchQuery (filters : FilterOptions) (pr : PullRequest) : bool :=
  negb (truthy_opt_string (f_searchQuery filters)
        && (let query := toLowerCase (default EmptyString (f_searchQuery filters)) in
            let matchesTitle := includes (toLowerCase (title pr)) query in
            let matchesNumber := includes (toString (number pr)) query in
            let matchesAuthor := includes (toLowerCase (login (author pr))) query in
            negb matchesTitle && negb matchesNumber && negb matchesAuthor)).

Definition passes_dateFrom (filters : FilterOptions) (pr : PullRequest) : bool :=
  negb (match f_dateFrom filters with
        | Some dateFrom => date_lt (createdAt pr) dateFrom
        | None => false
        end).

Definition passes_dateTo (filters : FilterOptions) (pr : PullRequest) : bool :=
  negb (match f_dateTo filters with
        | Some dateTo => date_gt (createdAt pr) dateTo
        | None => false
        end).

Definition keeps (filters : FilterOptions) (pr : PullRequest) : bool :=
  passes_states filters pr
  && passes_repositories filters pr
  && passes_labels filters pr
  && passes_assignees filters pr
  && passes_authors filters pr
  && passes_reviewers filters pr
  && passes_searchQuery filters pr
  && passes_dateFrom filters pr
  && passes_dateTo filters pr.

Definition filteredPullRequests (filters : FilterOptions) (pullRequests : list PullRequest)
  : list PullRequest :=
  List.filter (keeps filters) pullRequests.

End Search.

(** [filters = {}], the default of the hook. *)
Definition no_filters : FilterOptions :=
  {| f_repositories := None; f_labels := None; f_states := None;
     f_assignees := None; f_authors := None; f_reviewers := None;
     f_searchQuery := None; f_dateFrom := None; f_dateTo := None |}.

End Hooks.


(** ** Grouping by label ([app/components/GroupedPRDisplay.tsx]) *)
Module Grouping.
Import JS Types.

Record PRGroup : Type := {
  label : string;
  labelColor : string;
  pullRequests : list PullRequest
}.

(** The [isPrefix] both passes compute for a selected label. *)
Definition isPrefix (availableLabels : list Label) (labelName : string) : bool :=
  negb (includes labelName ":")
  && existsb (fun l => startsWith (name l) (labelName +:+ ":")) availableLabels.

Definition groups (pullRequests : list PullRequest) (groupByLabels : list string)
    (availableLabels : list Label) : list PRGroup :=
  map (fun labelName =>
         let label := List.find (fun l => String.eqb (name l) labelName) availableLabels in
         let isPrefix :=
           negb (includes labelName ":")
           && existsb (fun l => startsWith (name l) (labelName +:+ ":")) availableLabels in
         let prsWithLabel :=
           List.filter
             (fun pr =>
                existsb (fun l =>
                           if isPrefix then startsWith (name l) (labelName +:+ ":")
                           else String.eqb (name l) labelName)
                        (labels pr))
             pullRequests in
         {| label := labelName;
            labelColor :=
              match label with
              | Some l => if truthy_string (color l) then color l else "6b7280"
              | None => "6b7280"
              end;
            pullRequests := prsWithLabel |})
      groupByLabels.

Definition ungroupedPRs (pullRequests : list PullRequest) (groupByLabels : list string)
    (availableLabels : list Label) : list PullRequest :=
  List.filter
    (fun pr =>
       negb (existsb
               (fun prLabel =>
                  existsb
                    (fun selectedLabel =>
                       let isPrefix :=
                         negb (includes selectedLabel ":")
                         && existsb (fun l => startsWith (name l) (selectedLabel +:+ ":"))
                              availableLabels in
                       if isPrefix then startsWith (name prLabel) (selectedLabel +:+ ":")
                       else String.eqb (name prLabel) selectedLabel)
                    groupByLabels)
               (labels pr)))
    pullRequests.

End Grouping.


(** ** Concrete records used to run the definitions *)
Module Samples.
Import JS.

Definition alice : GitHub.GitHubUser :=
  {| GitHub.login := "alice"; GitHub.user_id := 1;
     GitHub.avatar_url := "https://avatars.example/alice";
     GitHub.user_html_url := "https://github.com/alice";
     GitHub.user_type := "User" |}.

Definition widgets : GitHub.GitHubRepository :=
  {| GitHub.repo_id := 10; GitHub.repo_node_id := "R_10"; GitHub.repo_name := "widgets";
     GitHub.full_name := "acme/widgets"; GitHub.repo_owner := alice;
     GitHub.private := false; GitHub.repo_html_url := "https://github.com/acme/widgets";
     GitHub.repo_description := None; GitHub.fork := false;
     GitHub.repo_url := "https://api.github.com/repos/acme/widgets";
     GitHub.default_branch := "main"; GitHub.open_issues_count := 3;
     GitHub.repo_updated_at := "2024-01-02T00:00:00Z" |}.

Definition main_branch : GitHub.Branch :=
  {| GitHub.branch_label := "acme:main"; GitHub.ref := "main"; GitHub.sha := "0a1b2c";
     GitHub.branch_user := alice; GitHub.branch_repo := widgets |}.

Definition raw_label (n : Z) (nm col : string) : GitHub.GitHubLabel :=
  {| GitHub.label_id := n; GitHub.label_node_id := "L"; GitHub.label_url := "";
     GitHub.label_name := nm; GitHub.label_color := col; GitHub.label_default := false;
     GitHub.label_description := None |}.

(** A wire record with the three fields the derived state reads left open. *)
Definition raw_pr (is_draft : bool) (merged : option string) (st : GitHub.RawState)
  : GitHub.GitHubPullRequest :=
  {| GitHub.id := 100; GitHub.node_id := "PR_100"; GitHub.number := 42;
     GitHub.state := st; GitHub.locked := false; GitHub.title := "Fix the widget";
     GitHub.user := alice; GitHub.body := None;
     GitHub.created_at := "2023-12-30T00:00:00Z";
     GitHub.updated_at := "2024-01-01T00:00:00Z";
     GitHub.closed_at := merged; GitHub.merged_at := merged;
     GitHub.merge_commit_sha := None; GitHub.assignee := None;
     GitHub.assignees := []; GitHub.requested_reviewers := [];
     GitHub.labels := [raw_label 7 "bug" "ff0000"];
     GitHub.draft := is_draft; GitHub.head := main_branch; GitHub.base := main_branch;
     GitHub.html_url := "https://github.com/acme/widgets/pull/42";
     GitHub.comments := 0; GitHub.review_comments := 0; GitHub.commits := 1;
     GitHub.additions := 5; GitHub.deletions := 2; GitHub.changed_files := 1 |}.

(** A date parser that knows no date: every [Date] it builds is invalid. *)
Definition no_parse (s : string) : option Z := None.

Definition app_label (n : Z) (nm col : string) : Types.Label :=
  Types.transformLabel (raw_label n nm col).

(** A normalised record with the given number, state and labels. *)
Definition app_pr (n : Z) (st : Types.PRState) (ls : list Types.Label) : Types.PullRequest :=
  {| Types.id := n; Types.number := n; Types.title := "Fix the widget";
     Types.state := st;
     Types.author := {| Types.login := "alice"; Types.avatarUrl := ""; Types.author_url := "" |};
     Types.repository := {| Types.repo_name := "widgets"; Types.fullName := "acme/widgets";
                            Types.owner := "acme" |};
     Types.labels := ls; Types.assignees := []; Types.reviewers := [];
     Types.createdAt := mkDate (Some 1703894400000);
     Types.updatedAt := mkDate (Some 1704067200000);
     Types.closedAt := None; Types.mergedAt := None;
     Types.url := ""; Types.comments := 0; Types.reviewComments := 0;
     Types.additions := 0; Types.deletions := 0; Types.changedFiles := 0;
     Types.isDraft := false; Types.isApproved := false |}.

(** A client whose counters say the quota is used up until 22:13:20 UTC on
    14 November 2023, and a world whose clock reads one second earlier. *)
Definition exhausted_client : Client.GitHubClient :=
  Client.mkClient "t0ken" "https://api.github.com" (Some (Num 0)) (Some (Num 1700000000000)).

Definition fresh_client : Client.GitHubClient :=
  Client.new_GitHubClient {| Client.opt_token := "t0ken"; Client.opt_baseUrl := None |}.

(** A remote side that answers every request with status 403 and the two
    rate-limit headers, the body not being JSON. *)
Definition forbidden : Client.Response unit :=
  {| Client.ok := false; Client.status := 403; Client.statusText := "Forbidden";
     Client.response_headers :=
       <["x-ratelimit-remaining" := "0"]> (<["x-ratelimit-reset" := "1700000000"]> ∅);
     Client.json := None |}.

Definition world_403 : Client.World unit :=
  Client.mkWorld (fun _ => 1699999999000%N) 0
    (fun _ _ => Async.Fulfilled forbidden) [].



Definition pulls_second_fails (i : nat) (o n : option string)
    (opts : Client.FetchPullRequestsOptions)
  : Async.Promise (list GitHub.GitHubPullRequest) :=
  Async.mkPromise (10 - i)
    (if Nat.eqb i 1 then Async.Rejected (Async.GitHubAPIError "Not Found" (Some 404) None)
     else Async.Fulfilled []).

Definition default_options : Client.FetchPullRequestsOptions :=
  {| Client.opt_state := None; Client.opt_sort := None; Client.opt_direction := None;
     Client.perPage := None; Client.page := None |}.

Definition ref_of (o n : string) : Client.RepositoryRef :=
  {| Client.owner := Some o; Client.repo := Some n |}.

(** Two repository results that both have a label named ["bug"]. *)
Definition two_bug_results : list Client.RepoLabels :=
  [ {| Client.lb_repository := "acme/one";
       Client.labels := [raw_label 7 "bug" "ff0000"; raw_label 8 "docs" "0000ff"] |};
    {| Client.lb_repository := "acme/two";
       Client.labels := [raw_label 9 "bug" "00ff00"] |} ].

(** The labels of the grouping scenario of the spec, and three records:
    one labelled ["type:bug"], one ["type:feature"] and ["urgent"], one bare. *)
Definition scenario_labels : list Types.Label :=
  [app_label 1 "type:bug" "d73a4a"; app_label 2 "type:feature" "a2eeef";
   app_label 3 "urgent" "b60205"].

Definition pr_bug : Types.PullRequest := app_pr 1 Types.st_open [app_label 1 "type:bug" "d73a4a"].
Definition pr_feature_urgent : Types.PullRequest :=
  app_pr 2 Types.st_open [app_label 2 "type:feature" "a2eeef"; app_label 3 "urgent" "b60205"].
Definition pr_bare : Types.PullRequest := app_pr 3 Types.st_open [].

(** Criteria whose fields are all present and empty, and the criteria of
    the filter scenario of the spec. *)
Definition empty_filters : Types.FilterOptions :=
  {| Types.f_repositories := Some []; Types.f_labels := Some [];
     Types.f_states := Some []; Types.f_assignees := Some [];
     Types.f_authors := Some []; Types.f_reviewers := Some [];
     Types.f_searchQuery := Some EmptyString;
     Types.f_dateFrom := None; Types.f_dateTo := None |}.

Definition open_42_filters : Types.FilterOptions :=
  {| Types.f_repositories := None; Types.f_labels := None;
     Types.f_states := Some [Types.st_open]; Types.f_assignees := None;
     Types.f_authors := None; Types.f_reviewers := None;
     Types.f_searchQuery := Some "42";
     Types.f_dateFrom := None; Types.f_dateTo := None |}.

(** Criteria with both date bounds, the lower one being the creation time
    of the sample records. *)
Definition january_filters : Types.FilterOptions :=
  {| Types.f_repositories := None; Types.f_labels := None;
     Types.f_states := None; Types.f_assignees := None;
     Types.f_authors := None; Types.f_reviewers := None;
     Types.f_searchQuery := None;
     Types.f_dateFrom := Some (mkDate (Some 1703894400000));
     Types.f_dateTo := Some (mkDate (Some 1706745600000)) |}.

(** Criteria that hold a search query only. *)
Definition query_filters (q : string) : Types.FilterOptions :=
  {| Types.f_repositories := None; Types.f_labels := None;
     Types.f_states := None; Types.f_assignees := None;
     Types.f_authors := None; Types.f_reviewers := None;
     Types.f_searchQuery := Some q;
     Types.f_dateFrom := None; Types.f_dateTo := None |}.

End Samples.


(** ** Array methods the remaining sources use *)
Module JSArray.
Import JS.

(** How [sort] reads the number its comparator returns for [(x, y)]:
    [x] stays before [y] unless the number is positive ([NaN] counts as
    zero). *)
Definition keeps_order (v : JSNum) : bool :=
  match v with NaN => true | Num z => z <=? 0 end.

(** [xs.sort(cmp)]. The sort of the language is stable, so for a
    consistent comparator its result is the one arrangement of [xs] that is
    ordered by [cmp] and keeps elements that compare equal in their order;
    inserting the elements from the right, each before the first element it
    may precede, computes that arrangement. (Under an inconsistent
    comparator the language leaves the order to the implementation.) *)
Fixpoint sort_insert {A} (cmp : A -> A -> JSNum) (x : A) (sorted : list A) : list A :=
  match sorted with
  | [] => [x]
  | y :: rest => if keeps_order (cmp x y) then x :: y :: rest else y :: sort_insert cmp x rest
  end.

Definition sort {A} (cmp : A -> A -> JSNum) (xs : list A) : list A :=
  foldr (sort_insert cmp) [] xs.

(** [xs.join(sep)] on an array of strings. *)
Fixpoint join (sep : string) (xs : list string) : string :=
  match xs with
  | [] => EmptyString
  | [x] => x
  | x :: rest => x +:+ sep +:+ join sep rest
  end.

(** [a.getTime() - b.getTime()] *)
Definition time_diff (a b : Date) : JSNum :=
  match getTime a, getTime b with
  | Some x, Some y => Num (x - y)
  | _, _ => NaN
  end.

End JSArray.


(** ** The token of a request ([app/lib/token.ts]) *)
Module Token.
Import JS.

(** [env] is [process.env.GITHUB_TOKEN]; [request] is the optional request,
    given by its headers under their lower-case names. *)
Definition getGitHubToken (env : option string) (request : option (gmap string string))
  : option string :=
  if truthy_opt_string env then env
  else
    match request with
    | Some headers =>
        let headerToken := headers !! "x-github-token" in
        if truthy_opt_string headerToken then headerToken else None
    | None => None
    end.

Definition hasEnvToken (env : option string) : bool := truthy_opt_string env.

End Token.


(** ** The rest of the route handlers *)
Module Handlers.
Import JS JSArray Client.

Section Pulls.
Variable Date_parse : string -> option Z.

(** [app/api/github/pulls/route.ts]: the pull requests of all results,
    normalised, most recently updated first. *)
Definition allPullRequests (results : list RepoPullRequests) : list Types.PullRequest :=
  sort (fun a b => time_diff (Types.updatedAt b) (Types.updatedAt a))
    (concat (map (fun result =>
                    map (Types.transformPullRequest Date_parse) (pullRequests result))
                 results)).

End Pulls.

(** [app/api/github/defaults/route.ts]: the configured repositories;
    [env] is [process.env.GITHUB_DEFAULT_REPOS]. *)
Definition default_repositories (env : option string) : list string :=
  let defaultRepos := if truthy_opt_string env then default EmptyString env else EmptyString in
  List.filter (fun repo => (0 <? String.length repo)%nat)
    (map (fun repo => trim repo) (split ","%char defaultRepos)).

End Handlers.


(** ** The single-repository operations of the client ([app/lib/github.ts]) *)
Module Endpoints.
Import JS JSArray Async Client.

(** The characters [URLSearchParams] writes as they are. *)
Definition is_form_safe (c : ascii) : bool :=
  let n := nat_of_ascii c in
  (Nat.leb 48 n && Nat.leb n 57) || (Nat.leb 65 n && Nat.leb n 90)
  || (Nat.leb 97 n && Nat.leb n 122)
  || Nat.eqb n 42 || Nat.eqb n 45 || Nat.eqb n 46 || Nat.eqb n 95.

Definition hex_digit (n : nat) : ascii :=
  if Nat.ltb n 10 then ascii_of_nat (48 + n) else ascii_of_nat (55 + n).

(** One byte in the [application/x-www-form-urlencoded] serialisation. *)
Definition form_encode_byte (c : ascii) : string :=
  if is_form_safe c then String c EmptyString
  else if Nat.eqb (nat_of_ascii c) 32 then "+"
  else String "%"%char
         (String (hex_digit (nat_of_ascii c / 16))
            (String (hex_digit (nat_of_ascii c mod 16)) EmptyString)).

Fixpoint form_encode (s : string) : string :=
  match s with
  | EmptyString => EmptyString
  | String c s' => form_encode_byte c +:+ form_encode s'
  end.


(** [`${new URLSearchParams(entries)}`] *)
Definition URLSearchParams_toString (entries : list (string * string)) : string :=
  join "&" (map (fun kv => form_encode (fst kv) +:+ "=" +:+ form_encode (snd kv)) entries).

(** [s || d] for a string and [n || d] for an integer-valued number. *)
Definition string_or (s : option string) (d : string) : string :=
  if truthy_opt_string s then default EmptyString s else d.

Definition number_or (n : option Z) (d : Z) : Z :=
  match n with
  | Some z => if z =? 0 then d else z
  | None => d
  end.

Definition pulls_params (options : FetchPullRequestsOptions) : list (string * string) :=
  [ ("state", string_or (opt_state options) "open");
    ("sort", string_or (opt_sort options) "created");
    ("direction", string_or (opt_direction options) "desc");
    ("per_page", toString (number_or (perPage options) 30));
    ("page", toString (number_or (page options) 1)) ].

Definition pulls_endpoint (owner repo : option string) (options : FetchPullRequestsOptions)
  : string :=
  "/repos/" +:+ template owner +:+ "/" +:+ template repo +:+ "/pulls?"
  +:+ URLSearchParams_toString (pulls_params options).

Definition getPullRequests {T} (c : GitHubClient) (owner repo : option string)
    (options : FetchPullRequestsOptions) (w : World T)
  : Settled T * GitHubClient * World T :=
  fetch c (pulls_endpoint owner repo options) {| init_headers := [] |} w.

Record PageOptions : Type := {
  lo_perPage : option Z;
  lo_page : option Z
}.

Definition labels_endpoint (owner repo : option string) (options : PageOptions) : string :=
  "/repos/" +:+ template owner +:+ "/" +:+ template repo +:+ "/labels?"
  +:+ URLSearchParams_toString
        [ ("per_page", toString (number_or (lo_perPage options) 100));
          ("page", toString (number_or (lo_page options) 1)) ].

Definition getLabels {T} (c : GitHubClient) (owner repo : option string)
    (options : PageOptions) (w : World T)
  : Settled T * GitHubClient * World T :=
  fetch c (labels_endpoint owner repo options) {| init_headers := [] |} w.

End Endpoints.


(** ** Selections and criteria edited by the components *)
Module Components.
Import JS Types Hooks.

(** [RepositorySelector.handleToggleRepository] *)
Definition handleToggleRepository (selectedRepositories : list string) (fullName : string)
  : list string :=
  if array_includes selectedRepositories fullName
  then List.filter (fun r => negb (String.eqb r fullName)) selectedRepositories
  else selectedRepositories ++ [fullName].

(** [LabelGroupSelector.toggleLabel] *)
Definition toggleLabel (selectedLabels : list string) (labelName : string) : list string :=
  if array_includes selectedLabels labelName
  then List.filter (fun l => negb (String.eqb l labelName)) selectedLabels
  else selectedLabels ++ [labelName].

(** [FilterBar]: each handler passes the new criteria to [onFiltersChange]. *)
Definition handleStateChange (filters : FilterOptions) (state : PRState) : FilterOptions :=
  let currentStates := default [] (f_states filters) in
  let newStates :=
    if array_includes currentStates state
    then List.filter (fun s => negb (bool_decide (s = state))) currentStates
    else currentStates ++ [state] in
  {| f_repositories := f_repositories filters; f_labels := f_labels filters;
     f_states := Some newStates; f_assignees := f_assignees filters;
     f_authors := f_authors filters; f_reviewers := f_reviewers filters;
     f_searchQuery := f_searchQuery filters;
     f_dateFrom := f_dateFrom filters; f_dateTo := f_dateTo filters |}.

Definition handleLabelChange (filters : FilterOptions) (labelName : string) : FilterOptions :=
  let currentLabels := default [] (f_labels filters) in
  let newLabels :=
    if array_includes currentLabels labelName
    then List.filter (fun l => negb (String.eqb l labelName)) currentLabels
    else currentLabels ++ [labelName] in
  {| f_repositories := f_repositories filters; f_labels := Some newLabels;
     f_states := f_states filters; f_assignees := f_assignees filters;
     f_authors := f_authors filters; f_reviewers := f_reviewers filters;
     f_searchQuery := f_searchQuery filters;
     f_dateFrom := f_dateFrom filters; f_dateTo := f_dateTo filters |}.

Definition handleSearchChange (filters : FilterOptions) (query : string) : FilterOptions :=
  {| f_repositories := f_repositories filters; f_labels := f_labels filters;
     f_states := f_states filters; f_assignees := f_assignees filters;
     f_authors := f_authors filters; f_reviewers := f_reviewers filters;
     f_searchQuery := Some query;
     f_dateFrom := f_dateFrom filters; f_dateTo := f_dateTo filters |}.

Definition handleClearFilters : FilterOptions :=
  {| f_repositories := None; f_labels := Some [];
     f_states := Some [st_open]; f_assignees := None;
     f_authors := None; f_reviewers := None;
     f_searchQuery := Some EmptyString;
     f_dateFrom := None; f_dateTo := None |}.

Definition activeFilterCount (filters : FilterOptions) : nat :=
  (length (default [] (f_states filters)) + length (default [] (f_labels filters))
   + (if truthy_opt_string (f_searchQuery filters) then 1 else 0))%nat.

(** [LabelGroupSelector]: the options offered for grouping. *)
Record GroupingOption : Type := {
  go_name : string;
  go_color : string;
  go_id : string;
  go_isPrefix : bool
}.


(** A [Map<string, GroupingOption>]: its entries in insertion order. *)
Definition OptionMap : Type := list (string * GroupingOption).


Fixpoint options_set (m : OptionMap) (k : string) (v : GroupingOption) : OptionMap :=
  match m with
  | [] => [(k, v)]
  | (k', v') :: m' =>
      if String.eqb k' k then (k, v) :: m' else (k', v') :: options_set m' k v
  end.



Section Options.
(** [a.localeCompare(b)], which depends on the locale of the browser. *)
Variable localeCompare : string -> string -> JSNum.



End Options.

End Components.


(** ** Columns ([app/hooks/useColumnConfig.ts]) and the table ([app/components/PRTable.tsx]) *)
Module Columns.
Import JS JSArray Types.

Record ColumnConfig : Type := {
  id : string;
  label : string;
  visible : bool;
  width : option Z;
  order : Z;
  sortable : option bool
}.

(** An element of the [columns] state: a column, or the object with the
    single property [order] that [reorderColumns] makes of a missing
    column. *)
Inductive Column : Type :=
| Full (c : ColumnConfig)
| OrderOnly (order : Z).

Definition column_id (col : Column) : option string :=
  match col with Full c => Some (id c) | OrderOnly _ => None end.

Definition column_visible (col : Column) : bool :=
  match col with Full c => visible c | OrderOnly _ => false end.

Definition column_order (col : Column) : Z :=
  match col with Full c => order c | OrderOnly o => o end.

Definition DEFAULT_COLUMNS : list Column :=
  [ Full {| id := "number"; label := "#"; visible := true; order := 0;
            width := Some 80; sortable := Some true |};
    Full {| id := "title"; label := "Title"; visible := true; order := 1;
            width := Some 400; sortable := Some true |};
    Full {| id := "repository"; label := "Repository"; visible := true; order := 2;
            width := Some 200; sortable := Some true |};
    Full {| id := "author"; label := "Author"; visible := true; order := 3;
            width := Some 150; sortable := Some true |};
    Full {| id := "state"; label := "Status"; visible := true; order := 4;
            width := Some 100; sortable := Some true |};
    Full {| id := "labels"; label := "Labels"; visible := true; order := 5;
            width := Some 200; sortable := None |};
    Full {| id := "assignees"; label := "Assignees"; visible := false; order := 6;
            width := Some 150; sortable := None |};
    Full {| id := "reviewers"; label := "Reviewers"; visible := false; order := 7;
            width := Some 150; sortable := None |};
    Full {| id := "createdAt"; label := "Created"; visible := false; order := 8;
            width := Some 120; sortable := Some true |};
    Full {| id := "updatedAt"; label := "Updated"; visible := true; order := 9;
            width := Some 120; sortable := Some true |};
    Full {| id := "comments"; label := "Comments"; visible := false; order := 10;
            width := Some 100; sortable := None |};
    Full {| id := "changes"; label := "Changes"; visible := false; order := 11;
            width := Some 120; sortable := None |} ].

Definition resetColumns : list Column := DEFAULT_COLUMNS.

(** [col.id === id], false for an object without [id]. *)
Definition has_id (col : Column) (i : string) : bool :=
  match column_id col with Some j => String.eqb j i | None => false end.

Definition toggleColumnVisibility (prev : list Column) (i : string) : list Column :=
  map (fun col =>
         if has_id col i then
           match col with
           | Full c => Full {| id := id c; label := label c; visible := negb (visible c);
                               width := width c; order := order c; sortable := sortable c |}
           | OrderOnly o => OrderOnly o
           end
         else col)
      prev.

(** [newColumns.splice(i, 1)] for an index [i >= 0]: the removed element,
    if there is one, and the array that is left. *)
Definition splice_out {A} (i : nat) (l : list A) : option A * list A :=
  (l !! i, delete i l).

(** [newColumns.splice(i, 0, x)] for an index [i >= 0]. *)
Definition splice_in {A} (i : nat) (x : A) (l : list A) : list A :=
  take i l ++ x :: drop i l.

(** [{ ...col, order: index }], where [col] may be [undefined]. *)
Definition with_order (index : nat) (col : option Column) : Column :=
  match col with
  | Some (Full c) =>
      Full {| id := id c; label := label c; visible := visible c; width := width c;
              order := Z.of_nat index; sortable := sortable c |}
  | Some (OrderOnly _) | None => OrderOnly (Z.of_nat index)
  end.

Definition reorderColumns (prev : list Column) (fromIndex toIndex : nat) : list Column :=
  let '(movedColumn, newColumns) := splice_out fromIndex prev in
  let newColumns := splice_in toIndex movedColumn (Some <$> newColumns) in
  imap (fun index col => with_order index col) newColumns.

(** [PRTable]: the columns of the table, and what marks a row as old. *)
Definition shouldHideRepoColumn (pullRequests : list PullRequest) : bool :=
  let uniqueRepos : gset string :=
    list_to_set (map (fun pr => fullName (repository pr)) pullRequests) in
  (size uniqueRepos <=? 1)%nat.

Definition visibleColumns (pullRequests : list PullRequest) (columns : list Column)
  : list Column :=
  sort (fun a b => Num (column_order a - column_order b))
    (List.filter (fun col => negb (has_id col "repository" && shouldHideRepoColumn pullRequests))
       (List.filter column_visible columns)).

(** [getAgeInDays(createdAt)] at the instant [now]: the whole days elapsed,
    [NaN] for an invalid date. *)
Definition getAgeInDays (now : Z) (createdAt : Date) : JSNum :=
  match getTime createdAt with
  | Some created => Num ((now - created) / (1000 * 60 * 60 * 24))
  | None => NaN
  end.

Definition isOld (now : Z) (createdAt : Date) : bool :=
  match getAgeInDays now createdAt with
  | Num days => 7 <=? days
  | NaN => false
  end.

End Columns.


(** ** More concrete records *)
Module MoreSamples.
Import JS.

(** A date parser that knows the two time stamps of the sample records. *)
Definition two_dates (s : string) : option Z :=
  if String.eqb s "2024-01-01T00:00:00Z" then Some 1704067200000
  else if String.eqb s "2023-12-30T00:00:00Z" then Some 1703894400000
  else None.

(** The sample wire record, last updated when it was created. *)
Definition stale_pr : GitHub.GitHubPullRequest :=
  {| GitHub.id := 99; GitHub.node_id := "PR_99"; GitHub.number := 41;
     GitHub.state := GitHub.raw_open; GitHub.locked := false;
     GitHub.title := "Tidy the widget";
     GitHub.user := Samples.alice; GitHub.body := None;
     GitHub.created_at := "2023-12-30T00:00:00Z";
     GitHub.updated_at := "2023-12-30T00:00:00Z";
     GitHub.closed_at := None; GitHub.merged_at := None;
     GitHub.merge_commit_sha := None; GitHub.assignee := None;
     GitHub.assignees := []; GitHub.requested_reviewers := [];
     GitHub.labels := [];
     GitHub.draft := false; GitHub.head := Samples.main_branch;
     GitHub.base := Samples.main_branch;
     GitHub.html_url := "https://github.com/acme/widgets/pull/41";
     GitHub.comments := 0; GitHub.review_comments := 0; GitHub.commits := 1;
     GitHub.additions := 1; GitHub.deletions := 1; GitHub.changed_files := 1 |}.




Definition world_after_reset : Client.World unit :=
  Client.mkWorld (fun _ => 1700000000001%N) 0
    (fun _ _ => Async.Fulfilled Samples.forbidden) [].

Definition two_results : list Client.RepoPullRequests :=
  [ {| Client.pr_repository := "acme/widgets";
       Client.pullRequests := [stale_pr; Samples.raw_pr false None GitHub.raw_open] |} ].

End MoreSamples.


(** * Properties *)

(** ** The normaliser *)
Section NormaliserFacts.
Import JS Types.
Variable Date_parse : string -> option Z.


End NormaliserFacts.


(** The end-to-end scenario of the spec: a closed, merged, non-draft record
    of alice with one label normalises to state ['merged'], author alice and
    the label unchanged. *)
Example transformPullRequest_merged_scenario :
  let pr := Types.transformPullRequest Samples.no_parse
              (Samples.raw_pr false (Some "2024-01-01T00:00:00Z") GitHub.raw_closed) in
  Types.state pr = Types.st_merged
  /\ Types.login (Types.author pr) = "alice"
  /\ Types.labels pr
     = [ {| Types.label_id := 7; Types.name := "bug"; Types.color := "ff0000";
            Types.description := None |} ].
Proof. repeat split. Qed.


(** ** [Promise.allSettled] and the fan-out *)
Section AllSettledFacts.
Import Async.
Context {A : Type}.
Implicit Types (values : list (option (Settled A))) (order : list (nat * Promise A)).

Lemma store_settled_length order values :
  length (foldl store_settled values order) = length values.
Proof.
  revert values; induction order as [|ip order IH]; intros values; [done|].
  cbn [foldl]. rewrite IH. unfold store_settled. apply length_insert.
Qed.

(** A slot no reaction writes to keeps its content. *)
Lemma store_settled_untouched order values (j : nat) :
  j ∉ order.*1 -> foldl store_settled values order !! j = values !! j.
Proof.
  revert values; induction order as [|[i p] order IH]; intros values Hj; [done|].
  cbn [foldl]. rewrite fmap_cons in Hj. apply not_elem_of_cons in Hj as [Hne Hj].
  rewrite IH by exact Hj. unfold store_settled; cbn.
  apply list_lookup_insert_ne. cbn in Hne. congruence.
Qed.

(** A slot written once holds the settled state of its promise, whenever
    the write happens. *)
Lemma store_settled_written order values (j : nat) (p : Promise A) :
  NoDup order.*1 -> (j, p) ∈ order -> (j < length values)%nat ->
  foldl store_settled values order !! j = Some (Some (outcome p)).
Proof.
  revert values; induction order as [|[i q] order IH]; intros values Hnd Hin Hlt.
  - by apply elem_of_nil in Hin.
  - rewrite fmap_cons in Hnd. apply NoDup_cons in Hnd as [Hfresh Hnd].
    cbn [foldl]. apply elem_of_cons in Hin as [Heq | Hin].
    + inversion Heq; subst i q.
      rewrite store_settled_untouched by exact Hfresh.
      unfold store_settled; cbn. by apply list_lookup_insert_eq.
    + apply IH; [done | done |].
      unfold store_settled. by rewrite length_insert.
Qed.

Lemma completion_order_Permutation (ps : list (Promise A)) :
  completion_order ps ≡ₚ zip (seq 0 (length ps)) ps.
Proof. apply merge_sort_Permutation. Qed.

(** Whatever the instants at which the promises settle, the array
    [Promise.allSettled] resolves with lists their settled states in the
    order of the input array, and has no empty slot. *)
Lemma allSettled_outcome (ps : list (Promise A)) :
  outcome (allSettled ps) = Fulfilled (Some <$> (outcome <$> ps)).
Proof.
  unfold allSettled; cbn [outcome]. f_equal.
  pose proof (completion_order_Permutation ps) as Hperm.
  assert (Hfst : (completion_order ps).*1 ≡ₚ seq 0 (length ps)).
  { rewrite Hperm. by rewrite fst_zip by (by rewrite length_seq). }
  apply list_eq; intros j.
  destruct (ps !! j) as [p|] eqn:Hj.
  - rewrite !list_lookup_fmap, Hj; cbn.
    apply store_settled_written.
    + rewrite Hfst. apply NoDup_seq.
    + rewrite Hperm. apply list_elem_of_lookup. exists j.
      rewrite lookup_zip_with.
      assert (Hlt : (j < length ps)%nat) by (by eapply lookup_lt_Some).
      rewrite (lookup_seq_lt 0 (length ps) j Hlt), Hj. done.
    + rewrite length_replicate. by eapply lookup_lt_Some.
  - rewrite !list_lookup_fmap, Hj; cbn.
    apply lookup_ge_None. rewrite store_settled_length, length_replicate.
    by apply lookup_ge_None.
Qed.

Lemma filter_fulfilled_filled (rs : list (Settled A)) :
  filter_fulfilled (Some <$> rs) = Fulfilled (List.filter is_fulfilled rs).
Proof.
  induction rs as [|r rs IH]; [done|].
  cbn [fmap list_fmap filter_fulfilled List.filter].
  change (list_fmap _ _ Some rs) with (Some <$> rs). rewrite IH.
  by destruct (is_fulfilled r).
Qed.

End AllSettledFacts.

Section FanOutFacts.
Import JS Async Client.

Lemma values_of_filter_fulfilled {A} (rs : list (Settled A)) :
  values_of (List.filter is_fulfilled rs) = values_of rs.
Proof.
  unfold values_of. induction rs as [|[v|e] rs IH]; cbn; [done | | done].
  by rewrite <- IH.
Qed.

Lemma omap_fmap_imap {X Y V W} (F : nat -> X -> Y) (h : Y -> V) (g : V -> option W)
    (l : list X) :
  omap g (h <$> imap F l) = omap id (imap (fun i x => g (h (F i x))) l).
Proof.
  revert F; induction l as [|x l IH]; intros F; [done|].
  cbn [imap fmap list_fmap omap list_omap].
  change (list_fmap _ _ h ?k) with (h <$> k).
  change (list_omap ?f ?k) with (omap f k).
  rewrite (IH (F ∘ S)). reflexivity.
Qed.

(** The shape both multi-repository operations share: one call per ref,
    joined by [allSettled], rejected calls filtered out. *)
Lemma fan_out_outcome {A B} (call : nat -> RepositoryRef -> Promise A)
    (wrap : RepositoryRef -> A -> B) (repositories : list RepositoryRef) :
  outcome
    (await_then
       (allSettled
          (imap (fun i r => await_then (call i r) (fun a => Fulfilled (wrap r a)))
                repositories))
       (fun results =>
          match filter_fulfilled results with
          | Fulfilled kept => Fulfilled (values_of kept)
          | Rejected e => Rejected e
          end))
  = Fulfilled
      (omap id
         (imap (fun i r =>
                  match outcome (call i r) with
                  | Fulfilled a => Some (wrap r a)
                  | Rejected _ => None
                  end)
               repositories)).
Proof.
  unfold await_then at 1; cbn [outcome].
  rewrite allSettled_outcome, filter_fulfilled_filled, values_of_filter_fulfilled.
  f_equal. unfold values_of.
  rewrite omap_fmap_imap. f_equal. apply imap_ext. intros i r _.
  unfold await_then; cbn [outcome]. by destruct (outcome (call i r)).
Qed.

(** The results of a fan-out sit at increasing positions of the input. *)
Lemma omap_imap_increasing {X B} (f : nat -> X -> option B) (l : list X) :
  exists idxs : list nat,
    StronglySorted lt idxs
    /\ Forall2 (fun i e => exists x, l !! i = Some x /\ f i x = Some e)
         idxs (omap id (imap f l)).
Proof.
  revert f; induction l as [|x l IH]; intros f.
  - exists []. split; constructor.
  - destruct (IH (f ∘ S)) as (idxs & Hsorted & Hall).
    assert (Hshift : StronglySorted lt (S <$> idxs)).
    { clear Hall. induction Hsorted as [|i idxs Hs IHs Hlt]; cbn; constructor.
      - exact IHs.
      - apply Forall_fmap. eapply Forall_impl; [exact Hlt|]. cbn; lia. }
    assert (Hall' : Forall2 (fun i e => exists y, (x :: l) !! i = Some y /\ f i y = Some e)
                      (S <$> idxs) (omap id (imap (f ∘ S) l))).
    { apply Forall2_fmap_l. eapply Forall2_impl; [exact Hall|].
      cbn. intros i e (y & Hy & Hf). by exists y. }
    cbn [imap omap list_omap].
    change (list_omap ?g ?k) with (omap g k).
    destruct (f 0%nat x) as [e|] eqn:Hf; cbn.
    + exists (0%nat :: (S <$> idxs)). split.
      * constructor; [exact Hshift|]. apply Forall_fmap, Forall_true. cbn; lia.
      * constructor; [by exists x | exact Hall'].
    + exists (S <$> idxs). by split.
Qed.

End FanOutFacts.

Section FanOutClaims.
Import JS Async Client.
Variable getPullRequests :
  nat -> option string -> option string -> FetchPullRequestsOptions ->
  Promise (list GitHub.GitHubPullRequest).
Variable getLabels :
  nat -> option string -> option string -> Promise (list GitHub.GitHubLabel).


(** C10. The value of either fan-out does not depend on the instants at
    which the calls settle ([retime] replaces them by any others), and its
    entries come from fulfilled calls at strictly increasing positions of
    the input list: the results are in input order, not completion order. *)
Theorem fan_out_keeps_input_order (repositories : list RepositoryRef)
    (options : FetchPullRequestsOptions) (retime : nat -> nat) :
  (outcome (getPullRequestsForRepositories
              (fun i o n opts => mkPromise (retime i) (outcome (getPullRequests i o n opts)))
              repositories options)
   = outcome (getPullRequestsForRepositories getPullRequests repositories options)
   /\ exists results idxs,
        outcome (getPullRequestsForRepositories getPullRequests repositories options)
        = Fulfilled results
        /\ StronglySorted lt idxs
        /\ Forall2 (fun i e =>
                      exists r prs,
                        repositories !! i = Some r
                        /\ outcome (getPullRequests i (owner r) (repo r) options) = Fulfilled prs
                        /\ e = {| pr_repository := ref_name r; pullRequests := prs |})
             idxs results)
  /\ (outcome (getLabelsForRepositories
                 (fun i o n => mkPromise (retime i) (outcome (getLabels i o n)))
                 repositories)
      = outcome (getLabelsForRepositories getLabels repositories)
      /\ exists results idxs,
           outcome (getLabelsForRepositories getLabels repositories) = Fulfilled results
           /\ StronglySorted lt idxs
           /\ Forall2 (fun i e =>
                         exists r ls,
                           repositories !! i = Some r
                           /\ outcome (getLabels i (owner r) (repo r)) = Fulfilled ls
                           /\ e = {| lb_repository := ref_name r; labels := ls |})
                idxs results).
Proof.
  split.
  - split.
    + unfold getPullRequestsForRepositories.
      rewrite (fan_out_outcome
                 (fun i r => mkPromise (retime i)
                               (outcome (getPullRequests i (owner r) (repo r) options)))
                 (fun r prs => {| pr_repository := ref_name r; pullRequests := prs |})).
      rewrite (fan_out_outcome
                 (fun i r => getPullRequests i (owner r) (repo r) options)
                 (fun r prs => {| pr_repository := ref_name r; pullRequests := prs |})).
      reflexivity.
    + eexists. 
      destruct (omap_imap_increasing
                  (fun i r =>
                     match outcome (getPullRequests i (owner r) (repo r) options) with
                     | Fulfilled prs =>
                         Some {| pr_repository := ref_name r; pullRequests := prs |}
                     | Rejected _ => None
                     end) repositories) as (idxs & Hsorted & Hall).
      exists idxs. split; [|split; [exact Hsorted|]].
      * exact (fan_out_outcome
                 (fun i r => getPullRequests i (owner r) (repo r) options)
                 (fun r prs => {| pr_repository := ref_name r; pullRequests := prs |})
                 repositories).
      * eapply Forall2_impl; [exact Hall|]. cbn.
        intros i e (r & Hr & He). exists r.
        destruct (outcome (getPullRequests i (owner r) (repo r) options)) as [prs|];
          [|discriminate].
        exists prs. by inversion He.
  - split.
    + unfold getLabelsForRepositories.
      rewrite (fan_out_outcome
                 (fun i r => mkPromise (retime i) (outcome (getLabels i (owner r) (repo r))))
                 (fun r ls => {| lb_repository := ref_name r; labels := ls |})).
      rewrite (fan_out_outcome
                 (fun i r => getLabels i (owner r) (repo r))
                 (fun r ls => {| lb_repository := ref_name r; labels := ls |})).
      reflexivity.
    + eexists.
      destruct (omap_imap_increasing
                  (fun i r =>
                     match outcome (getLabels i (owner r) (repo r)) with
                     | Fulfilled ls => Some {| lb_repository := ref_name r; labels := ls |}
                     | Rejected _ => None
                     end) repositories) as (idxs & Hsorted & Hall).
      exists idxs. split; [|split; [exact Hsorted|]].
      * exact (fan_out_outcome
                 (fun i r => getLabels i (owner r) (repo r))
                 (fun r ls => {| lb_repository := ref_name r; labels := ls |})
                 repositories).
      * eapply Forall2_impl; [exact Hall|]. cbn.
        intros i e (r & Hr & He). exists r.
        destruct (outcome (getLabels i (owner r) (repo r))) as [ls|]; [|discriminate].
        exists ls. by inversion He.
Qed.

End FanOutClaims.


(** ** The rate-limit bookkeeping of [fetch] *)
Section FetchFacts.
Import JS Async Runtime Client.
Context {T : Type}.
Implicit Types (c : GitHubClient) (w : World T).

(** The guard only reads the clock. *)
Lemma check_rate_limit_world c w :
  exists k : nat,
    snd (check_rate_limit c w) = mkWorld (clock w) (reads w + k) (remote w) (sent w).
Proof.
  destruct w as [clk rd rem snt]. unfold check_rate_limit; cbn.
  destruct (rateLimitRemaining c) as [[|[| |]]|];
    try (exists 0%nat; cbn; f_equal; lia).
  destruct (rateLimitReset c) as [[|r]|]; cbn.
  2: destruct (negb (r =? 0)); cbn.
  all: match goal with |- context [if ?b then _ else _] => destruct b end; cbn.
  all: first [ exists 1%nat; cbn; f_equal; lia | exists 2%nat; cbn; f_equal; lia ].
Qed.

Lemma fetch_guarded c endpoint options w exn w1 :
  check_rate_limit c w = (Some exn, w1) ->
  fetch c endpoint options w = (Rejected exn, c, w1).
Proof. intros H. unfold fetch. by rewrite H. Qed.

(** Past the guard, exactly one request is sent, and the client becomes
    what the answer makes it. *)
Lemma fetch_unguarded c endpoint options w w1 :
  check_rate_limit c w = (None, w1) ->
  let req := request_of c endpoint options in
  sent (snd (fetch c endpoint options w)) = (sent w ++ [req])%list
  /\ snd (fst (fetch c endpoint options w))
     = match remote w (sent w) req with
       | Rejected _ => c
       | Fulfilled response => update_rate_limit c response
       end.
Proof.
  intros H req. unfold fetch. rewrite H.
  destruct (check_rate_limit_world c w) as [k Hw]. rewrite H in Hw; cbn in Hw; subst w1.
  unfold global_fetch; cbn. fold req.
  destruct (remote w (sent w) req) as [response|e]; cbn; [|done].
  destruct (ok response); cbn; [destruct (json response)|]; done.
Qed.

(** The two counters after a response, header by header. *)
Lemma update_rate_limit_fields c (response : Response T) :
  token (update_rate_limit c response) = token c
  /\ baseUrl (update_rate_limit c response) = baseUrl c
  /\ rateLimitRemaining (update_rate_limit c response)
     = match response_headers response !! "x-ratelimit-remaining" with
       | Some (String a s) => Some (parseInt (String a s))
       | _ => rateLimitRemaining c
       end
  /\ rateLimitReset (update_rate_limit c response)
     = match response_headers response !! "x-ratelimit-reset" with
       | Some (String a s) => Some (times (parseInt (String a s)) 1000)
       | _ => rateLimitReset c
       end.
Proof.
  unfold update_rate_limit.
  destruct (response_headers response !! "x-ratelimit-remaining") as [[|a s]|];
    destruct (response_headers response !! "x-ratelimit-reset") as [[|a' s']|];
    cbn; done.
Qed.


(** A client whose remaining-count is not zero passes the guard without
    reading the clock. *)
Lemma check_rate_limit_open c w :
  rateLimitRemaining c <> Some (Num 0) -> check_rate_limit c w = (None, w).
Proof.
  intros Hrem. unfold check_rate_limit.
  by destruct (rateLimitRemaining c) as [[|[| |]]|].
Qed.

(** The guard fires when the count is zero and the reset time lies ahead. *)
Lemma check_rate_limit_fires c w (r : Z) :
  rateLimitRemaining c = Some (Num 0) ->
  rateLimitReset c = Some (Num r) ->
  Z.of_N (clock w (reads w)) < r ->
  exists e,
    check_rate_limit c w
    = (Some e, mkWorld (clock w) (S (reads w)) (remote w) (sent w)).
Proof.
  intros Hrem Hreset Hlt. unfold check_rate_limit. rewrite Hrem, Hreset.
  cbn [truthy_num].
  replace (r =? 0) with false by (symmetry; apply Z.eqb_neq; lia).
  cbn [negb Date_now].
  replace (0 <? r - Z.of_N (clock w (reads w))) with true
    by (symmetry; apply Z.ltb_lt; lia).
  eauto.
Qed.




End FetchFacts.

Section FetchClaims.
Import JS Async Runtime Client.
Context {T : Type}.
Implicit Types (c : GitHubClient) (w : World T).


(** C8, as the code has it. The two counters follow the headers of every
    response received, successful or not: each is replaced when its header
    is present and not empty, and kept otherwise. They are left as they
    were exactly when no response is received: when [fetch] sends nothing
    (the guard rejected) or when the request fails at the network level. *)
Theorem fetch_counters_follow_every_response c (endpoint : string)
    (options : RequestInit) w :
  let c' := snd (fst (fetch c endpoint options w)) in
  let w' := snd (fetch c endpoint options w) in
  (sent w' = sent w -> c' = c)
  /\ (sent w' <> sent w ->
      match remote w (sent w) (request_of c endpoint options) with
      | Rejected _ => c' = c
      | Fulfilled response =>
          token c' = token c
          /\ baseUrl c' = baseUrl c
          /\ rateLimitRemaining c'
             = match response_headers response !! "x-ratelimit-remaining" with
               | Some (String a s) => Some (parseInt (String a s))
               | _ => rateLimitRemaining c
               end
          /\ rateLimitReset c'
             = match response_headers response !! "x-ratelimit-reset" with
               | Some (String a s) => Some (times (parseInt (String a s)) 1000)
               | _ => rateLimitReset c
               end
      end).
Proof.
  intros c' w'. subst c' w'.
  destruct (check_rate_limit c w) as [[exn|] w1] eqn:Hguard.
  - rewrite (fetch_guarded c endpoint options w exn w1 Hguard); cbn.
    destruct (check_rate_limit_world c w) as [k Hw]. rewrite Hguard in Hw; cbn in Hw.
    subst w1; cbn. split; [done|]. intros Hne; by destruct Hne.
  - destruct (fetch_unguarded c endpoint options w w1 Hguard) as [Hsent Hclient].
    rewrite Hsent, Hclient. split.
    + intros Heq. apply (f_equal length) in Heq.
      rewrite length_app in Heq; cbn in Heq. lia.
    + intros _.
      destruct (remote w (sent w) (request_of c endpoint options)) as [response|e];
        [|done].
      apply update_rate_limit_fields.
Qed.

End FetchClaims.



Lemma fetch_counters_follow_every_response_witness :
  Client.token (snd (fst (Client.fetch Samples.fresh_client "/user/repos"
                            {| Client.init_headers := [] |} Samples.world_403))) = "t0ken"
  /\ Client.baseUrl (snd (fst (Client.fetch Samples.fresh_client "/user/repos"
                                 {| Client.init_headers := [] |} Samples.world_403)))
     = "https://api.github.com"
  /\ Client.rateLimitRemaining
       (snd (fst (Client.fetch Samples.fresh_client "/user/repos"
                    {| Client.init_headers := [] |} Samples.world_403)))
     = Some (JS.Num 0)
  /\ Client.rateLimitReset
       (snd (fst (Client.fetch Samples.fresh_client "/user/repos"
                    {| Client.init_headers := [] |} Samples.world_403)))
     = Some (JS.Num 1700000000000).
Proof.
  apply (proj2 (fetch_counters_follow_every_response Samples.fresh_client "/user/repos"
                  {| Client.init_headers := [] |} Samples.world_403)).
  vm_compute. discriminate.
Defined.

(** C8, as the spec words it, fails: a 403 answer that carries the two
    rate-limit headers rejects the call and still replaces both counters of
    a client that had none. *)
Lemma fetch_error_response_changes_counters :
  ~ (forall (c : Client.GitHubClient) (endpoint : string) (options : Client.RequestInit)
            (w : Client.World unit) e c' w',
        Client.fetch c endpoint options w = (Async.Rejected e, c', w') ->
        Client.rateLimitRemaining c' = Client.rateLimitRemaining c
        /\ Client.rateLimitReset c' = Client.rateLimitReset c).
Proof.
  intros Hframe.
  pose proof (Hframe Samples.fresh_client "/user/repos" {| Client.init_headers := [] |}
                Samples.world_403) as H.
  vm_compute in H.
  destruct (H _ _ _ eq_refl) as [Hrem _]. discriminate Hrem.
Qed.


(** ** Strings *)
Section StringFacts.
Import JS.

Lemma append_cons (a : ascii) (s t : string) : String a s +:+ t = String a (s +:+ t).
Proof. reflexivity. Qed.

Lemma prefix_spec (p s : string) :
  String.prefix p s = true <-> exists rest, s = p +:+ rest.
Proof.
  revert s; induction p as [|a p IH]; intros s.
  - split; [intros _; by exists s|]. intros _. by destruct s.
  - destruct s as [|b s]; simpl.
    + split; [done | intros [rest Hrest]; discriminate].
    + destruct (ascii_dec a b) as [->|Hne].
      * rewrite IH. split; intros [rest Hrest]; exists rest.
        -- by rewrite append_cons, <- Hrest.
        -- rewrite append_cons in Hrest. congruence.
      * split; [done|]. intros [rest Hrest]. rewrite append_cons in Hrest. congruence.
Qed.

Lemma startsWith_spec (s p : string) :
  startsWith s p = true <-> exists rest, s = p +:+ rest.
Proof. apply prefix_spec. Qed.

Lemma includes_spec (s sub : string) :
  includes s sub = true <-> exists before after, s = before +:+ sub +:+ after.
Proof.
  induction s as [|a s IH]; cbn [includes].
  - rewrite orb_false_r, prefix_spec. split.
    + intros [rest Hrest]. by exists EmptyString, rest.
    + intros ([|b before] & after & H); [by exists after | discriminate].
  - rewrite orb_true_iff, prefix_spec, IH. split.
    + intros [[rest Hrest] | (before & after & H)].
      * by exists EmptyString, rest.
      * exists (String a before), after. by rewrite append_cons, <- H.
    + intros ([|b before] & after & H).
      * left. by exists after.
      * right. exists before, after. rewrite append_cons in H. congruence.
Qed.

(** [split] yields one piece more than there are separators. *)
Lemma split_length (sep : ascii) (s : string) :
  length (split sep s) = S (count_occ ascii_dec (list_ascii_of_string s) sep).
Proof.
  induction s as [|c s IH]; [done|].
  cbn [split list_ascii_of_string count_occ].
  destruct (Ascii.eqb_spec c sep) as [->|Hne].
  - destruct (ascii_dec sep sep); [|done]. cbn. by rewrite IH.
  - destruct (ascii_dec c sep); [done|].
    destruct (split sep s); cbn in *; [done | exact IH].
Qed.

Lemma split_nonempty (sep : ascii) (s : string) : exists h t, split sep s = h :: t.
Proof.
  pose proof (split_length sep s) as H.
  destruct (split sep s) as [|h t]; [discriminate | eauto].
Qed.

End StringFacts.


(** ** The route handlers *)
Section RouteFacts.
Import JS Async Client Routes.



End RouteFacts.



(** The scenario of the spec: of three refs whose second call is rejected,
    the first and the third come back, in that order, although the calls
    settle in the reverse order. *)
Example fan_out_partial_failure :
  Async.outcome
    (Client.getPullRequestsForRepositories Samples.pulls_second_fails
       [Samples.ref_of "acme" "one"; Samples.ref_of "acme" "two"; Samples.ref_of "acme" "three"]
       Samples.default_options)
  = Async.Fulfilled
      [ {| Client.pr_repository := "acme/one"; Client.pullRequests := [] |};
        {| Client.pr_repository := "acme/three"; Client.pullRequests := [] |} ].
Proof. reflexivity. Qed.


(** ** Label aggregation *)
Section AggregationFacts.
Import JS Client Routes.
Implicit Types (m : LabelMap) (flat : list GitHub.GitHubLabel).

Lemma Map_has_spec m (k : string) : Map_has m k = true <-> k ∈ m.*1.
Proof.
  unfold Map_has. induction m as [|[k' v'] m IH]; cbn.
  - split; [done | intros H; by apply elem_of_nil in H].
  - rewrite orb_true_iff, IH, elem_of_cons, String.eqb_eq. cbn.
    split; (intros [? | ?]; [by left | by right]).
Qed.

(** Setting a key the map lacks appends the entry. *)
Lemma Map_set_fresh m (k : string) (v : Types.Label) :
  k ∉ m.*1 -> Map_set m k v = m ++ [(k, v)].
Proof.
  induction m as [|[k' v'] m IH]; cbn; [done|].
  intros Hk. apply not_elem_of_cons in Hk as [Hne Hk].
  destruct (String.eqb_spec k' k) as [->|_]; [done|]. by rewrite IH.
Qed.

Lemma add_label_cases m (x : GitHub.GitHubLabel) :
  ((GitHub.label_name x ∈ m.*1) /\ add_label m x = m)
  \/ ((GitHub.label_name x ∉ m.*1)
      /\ add_label m x = m ++ [(GitHub.label_name x, Types.transformLabel x)]).
Proof.
  unfold add_label. cbn [Types.name Types.transformLabel].
  destruct (Map_has m (GitHub.label_name x)) eqn:Hhas; cbn [negb].
  - left. split; [by apply Map_has_spec | done].
  - right.
    assert (Hk : GitHub.label_name x ∉ m.*1).
    { intros Hin. apply Map_has_spec in Hin. congruence. }
    split; [done | by apply Map_set_fresh].
Qed.

Lemma first_named_nil (k : string) (v : Types.Label) : ~ first_named [] k v.
Proof. intros (i & raw & H & _). by rewrite lookup_nil in H. Qed.

Lemma first_named_cons (x : GitHub.GitHubLabel) flat (k : string) (v : Types.Label) :
  first_named (x :: flat) k v
  <-> (k = GitHub.label_name x /\ v = Types.transformLabel x)
      \/ (GitHub.label_name x <> k /\ first_named flat k v).
Proof.
  split.
  - intros ([|i] & raw & Hi & Hk & Hv & Hfirst); cbn in Hi.
    + left. by inversion Hi; subst.
    + right. split.
      * apply (Hfirst 0%nat x); [lia | done].
      * exists i, raw. repeat split; try done.
        intros j raw' Hj Hraw'. apply (Hfirst (S j) raw'); [lia | done].
  - intros [[-> ->] | (Hne & i & raw & Hi & Hk & Hv & Hfirst)].
    + exists 0%nat, x. repeat split; try done. intros j raw' Hj; lia.
    + exists (S i), raw. repeat split; try done.
      intros [|j] raw' Hj Hraw'; cbn in Hraw'.
      * by inversion Hraw'; subst.
      * apply (Hfirst j raw'); [lia | done].
Qed.

(** The loop invariant: entries are keyed by their own name, keys are
    distinct, and the loop adds exactly the first label of each new name. *)
Lemma add_labels_spec flat m :
  Forall (fun kv => fst kv = Types.name (snd kv)) m ->
  NoDup m.*1 ->
  Forall (fun kv => fst kv = Types.name (snd kv)) (foldl add_label m flat)
  /\ NoDup (foldl add_label m flat).*1
  /\ forall k v,
       (k, v) ∈ foldl add_label m flat
       <-> (k, v) ∈ m \/ ((k ∉ m.*1) /\ first_named flat k v).
Proof.
  revert m; induction flat as [|x flat IH]; intros m Hkeyed Hnodup; cbn [foldl].
  - repeat split; try done; [naive_solver|].
    intros [? | [_ Hfirst]]; [done | by apply first_named_nil in Hfirst].
  - destruct (add_label_cases m x) as [[Hin ->] | [Hfresh ->]].
    + destruct (IH m Hkeyed Hnodup) as (Hk' & Hn' & Hmem).
      repeat split; try done.
      * intros H. apply Hmem in H as [? | [Hk Hfirst]]; [by left | right].
        split; [done|]. apply first_named_cons. right. split; [|done].
        intros Heq. by subst k.
      * intros [? | [Hk Hfirst]]; apply Hmem; [by left | right].
        split; [done|]. apply first_named_cons in Hfirst as [[-> _] | [_ ?]]; done.
    + destruct (IH (m ++ [(GitHub.label_name x, Types.transformLabel x)]))
        as (Hk' & Hn' & Hmem).
      * apply Forall_app. split; [done|]. by repeat constructor.
      * rewrite fmap_app. apply NoDup_app. repeat split; [done | | ].
        -- intros k Hk Hk'. cbn in Hk'. apply list_elem_of_singleton in Hk'. by subst.
        -- cbn. apply NoDup_singleton.
      * repeat split; try done.
        -- intros H. apply Hmem in H as [H | [Hk Hfirst]].
           ++ apply elem_of_app in H as [? | H]; [by left | right].
              apply list_elem_of_singleton in H. inversion H; subst.
              split; [done|]. apply first_named_cons. by left.
           ++ rewrite fmap_app in Hk. apply not_elem_of_app in Hk as [Hk Hne].
              right. split; [done|]. apply first_named_cons. right. split; [|done].
              intros Heq. apply Hne. cbn. rewrite Heq. apply list_elem_of_singleton. done.
        -- intros [H | [Hk Hfirst]]; apply Hmem.
           ++ left. apply elem_of_app. by left.
           ++ apply first_named_cons in Hfirst as [[-> ->] | [Hne Hfirst]].
              ** left. apply elem_of_app. right. by apply list_elem_of_singleton.
              ** right. split; [|done]. rewrite fmap_app. apply not_elem_of_app.
                 split; [done|]. cbn. intros H. apply list_elem_of_singleton in H. done.
Qed.

(** The nested loops visit the labels in the order of the flattened lists. *)
Lemma nested_loops_flat (results : list RepoLabels) m :
  foldl (fun m result => foldl add_label m (labels result)) m results
  = foldl add_label m (concat (labels <$> results)).
Proof.
  revert m; induction results as [|r results IH]; intros m; [done|].
  cbn [foldl fmap list_fmap concat]. change (list_fmap _ _ labels results) with (labels <$> results).
  by rewrite foldl_app, IH.
Qed.

End AggregationFacts.


(** The scenario of the spec: two repositories with a label ["bug"], red
    in the first and green in the second; the aggregate has one ["bug"], red. *)
Example uniqueLabels_two_bugs :
  Routes.uniqueLabels Samples.two_bug_results
  = [Samples.app_label 7 "bug" "ff0000"; Samples.app_label 8 "docs" "0000ff"].
Proof. reflexivity. Qed.


(** ** Filtering and grouping *)
Section ListFacts.
Context {A : Type}.

Lemma elem_of_filter_bool (f : A -> bool) (l : list A) (x : A) :
  x ∈ List.filter f l <-> x ∈ l /\ f x = true.
Proof. rewrite !list_elem_of_In. apply filter_In. Qed.

Lemma existsb_elem_of (f : A -> bool) (l : list A) :
  existsb f l = true <-> exists x, x ∈ l /\ f x = true.
Proof.
  rewrite existsb_exists. split; intros (x & Hx & Hf); exists x; split; try done.
  - by apply list_elem_of_In.
  - by apply list_elem_of_In.
Qed.

Lemma filter_all_true (f : A -> bool) (l : list A) :
  (forall x, f x = true) -> List.filter f l = l.
Proof.
  intros Hf. induction l as [|x l IH]; [done|].
  cbn. by rewrite Hf, IH.
Qed.

End ListFacts.

Section FilterClaims.
Import JS Types Hooks.
Variable toLowerCase : string -> string.

(** C5. A field of the criteria that is empty or absent constrains
    nothing: its check passes for every record, whatever the other fields
    hold (a date bound has no empty value, only absence). Hence, with
    criteria whose every field is empty or absent, the filter returns its
    input unchanged, record for record and in order. *)
Theorem filteredPullRequests_without_criteria (filters : FilterOptions) :
  (forall pr : PullRequest,
      ((f_states filters = None \/ f_states filters = Some []) ->
       passes_states filters pr = true)
      /\ ((f_repositories filters = None \/ f_repositories filters = Some []) ->
          passes_repositories filters pr = true)
      /\ ((f_labels filters = None \/ f_labels filters = Some []) ->
          passes_labels filters pr = true)
      /\ ((f_assignees filters = None \/ f_assignees filters = Some []) ->
          passes_assignees filters pr = true)
      /\ ((f_authors filters = None \/ f_authors filters = Some []) ->
          passes_authors filters pr = true)
      /\ ((f_reviewers filters = None \/ f_reviewers filters = Some []) ->
          passes_reviewers filters pr = true)
      /\ ((f_searchQuery filters = None \/ f_searchQuery filters = Some EmptyString) ->
          passes_searchQuery toLowerCase filters pr = true)
      /\ (f_dateFrom filters = None -> passes_dateFrom filters pr = true)
      /\ (f_dateTo filters = None -> passes_dateTo filters pr = true))
  /\ (forall pullRequests : list PullRequest,
         (f_states filters = None \/ f_states filters = Some []) ->
         (f_repositories filters = None \/ f_repositories filters = Some []) ->
         (f_labels filters = None \/ f_labels filters = Some []) ->
         (f_assignees filters = None \/ f_assignees filters = Some []) ->
         (f_authors filters = None \/ f_authors filters = Some []) ->
         (f_reviewers filters = None \/ f_reviewers filters = Some []) ->
         (f_searchQuery filters = None \/ f_searchQuery filters = Some EmptyString) ->
         f_dateFrom filters = None ->
         f_dateTo filters = None ->
         filteredPullRequests toLowerCase filters pullRequests = pullRequests).
Proof.
  assert (Hfields : forall pr : PullRequest,
      ((f_states filters = None \/ f_states filters = Some []) ->
       passes_states filters pr = true)
      /\ ((f_repositories filters = None \/ f_repositories filters = Some []) ->
          passes_repositories filters pr = true)
      /\ ((f_labels filters = None \/ f_labels filters = Some []) ->
          passes_labels filters pr = true)
      /\ ((f_assignees filters = None \/ f_assignees filters = Some []) ->
          passes_assignees filters pr = true)
      /\ ((f_authors filters = None \/ f_authors filters = Some []) ->
          passes_authors filters pr = true)
      /\ ((f_reviewers filters = None \/ f_reviewers filters = Some []) ->
          passes_reviewers filters pr = true)
      /\ ((f_searchQuery filters = None \/ f_searchQuery filters = Some EmptyString) ->
          passes_searchQuery toLowerCase filters pr = true)
      /\ (f_dateFrom filters = None -> passes_dateFrom filters pr = true)
      /\ (f_dateTo filters = None -> passes_dateTo filters pr = true)).
  { intros pr.
    unfold passes_states, passes_repositories, passes_labels, passes_assignees,
      passes_authors, passes_reviewers, passes_searchQuery, passes_dateFrom, passes_dateTo.
    repeat split; first [ intros [-> | ->]; reflexivity | intros ->; reflexivity ]. }
  split; [exact Hfields|].
  intros pullRequests Hs Hr Hl Ha Hau Hrv Hq Hfrom Hto.
  apply filter_all_true. intros pr.
  destruct (Hfields pr) as (Ps & Pr & Pl & Pa & Pau & Prv & Pq & Pfrom & Pto).
  unfold keeps.
  by rewrite (Ps Hs), (Pr Hr), (Pl Hl), (Pa Ha), (Pau Hau), (Prv Hrv), (Pq Hq),
    (Pfrom Hfrom), (Pto Hto).
Qed.

End FilterClaims.

Lemma filteredPullRequests_without_criteria_witness :
  Hooks.filteredPullRequests JS.toLowerCase_ascii Hooks.no_filters
    [Samples.app_pr 42 Types.st_open []; Samples.app_pr 420 Types.st_closed []]
  = [Samples.app_pr 42 Types.st_open []; Samples.app_pr 420 Types.st_closed []]
  /\ Hooks.filteredPullRequests JS.toLowerCase_ascii Samples.empty_filters
       [Samples.app_pr 42 Types.st_open []]
     = [Samples.app_pr 42 Types.st_open []]
  /\ Hooks.passes_labels Samples.open_42_filters (Samples.app_pr 420 Types.st_closed [])
     = true.
Proof.
  split; [|split].
  - apply (proj2 (filteredPullRequests_without_criteria JS.toLowerCase_ascii
                    Hooks.no_filters));
      first [ left; reflexivity | reflexivity ].
  - apply (proj2 (filteredPullRequests_without_criteria JS.toLowerCase_ascii
                    Samples.empty_filters));
      first [ right; reflexivity | reflexivity ].
  - apply (proj1 (proj2 (proj2 (proj1 (filteredPullRequests_without_criteria
                                         JS.toLowerCase_ascii Samples.open_42_filters)
                                  (Samples.app_pr 420 Types.st_closed []))))).
    left; reflexivity.
Defined.

(** The end-to-end scenario of the spec: states ["open"] and the query
    ["42"] keep the open record number 42 and drop the closed number 420,
    which the query alone would have kept. *)
Example filteredPullRequests_open_42 :
  Hooks.filteredPullRequests JS.toLowerCase_ascii Samples.open_42_filters
    [Samples.app_pr 42 Types.st_open []; Samples.app_pr 420 Types.st_closed []]
  = [Samples.app_pr 42 Types.st_open []].
Proof. reflexivity. Qed.

Section GroupingClaims.
Import JS Types Grouping.
Implicit Types (pullRequests : list PullRequest) (groupByLabels : list string)
  (availableLabels : list Label).

(** The test both passes apply to one label of a record for one selected
    label. *)
Lemma group_match_spec availableLabels (G : string) (l : Label) :
  (if isPrefix availableLabels G then startsWith (name l) (G +:+ ":")
   else String.eqb (name l) G) = true
  <-> (isPrefix availableLabels G = true /\ exists rest, name l = (G +:+ ":") +:+ rest)
      \/ (isPrefix availableLabels G = false /\ name l = G).
Proof.
  destruct (isPrefix availableLabels G).
  - rewrite startsWith_spec. split; [intros H; by left | intros [[_ H] | [? _]]; done].
  - rewrite String.eqb_eq. split; [intros H; by right | intros [[? _] | [_ H]]; done].
Qed.

Lemma isPrefix_spec availableLabels (G : string) :
  isPrefix availableLabels G = true
  <-> (~ exists before after, G = before +:+ ":" +:+ after)
      /\ exists l rest, l ∈ availableLabels /\ name l = (G +:+ ":") +:+ rest.
Proof.
  unfold isPrefix. rewrite andb_true_iff, negb_true_iff, existsb_elem_of.
  rewrite <- not_true_iff_false, includes_spec.
  split; intros [Hcolon (l & H)]; (split; [exact Hcolon|]).
  - destruct H as [Hl Hs]. apply startsWith_spec in Hs as [rest Hrest]. by exists l, rest.
  - destruct H as (rest & Hl & Hrest). exists l. split; [done|].
    apply startsWith_spec. by exists rest.
Qed.

(** C3. The remainder is the complement of the groups: a record is in the
    ungrouped set exactly when it is a record of the input that is in the
    record subset of none of the groups produced for the selected labels. *)
Theorem ungroupedPRs_complement pullRequests groupByLabels availableLabels
    (pr : PullRequest) :
  pr ∈ ungroupedPRs pullRequests groupByLabels availableLabels
  <-> pr ∈ pullRequests
      /\ forall g : PRGroup,
           g ∈ groups pullRequests groupByLabels availableLabels ->
           pr ∉ Grouping.pullRequests g.
Proof.
  unfold ungroupedPRs, groups. rewrite elem_of_filter_bool, negb_true_iff.
  split.
  - intros [Hin Hnone]. split; [done|].
    intros g Hg Hpr. apply list_elem_of_fmap in Hg as (G & -> & HG).
    cbn [Grouping.pullRequests] in Hpr.
    apply elem_of_filter_bool in Hpr as [_ Hsome].
    apply existsb_elem_of in Hsome as (l & Hl & Hmatch).
    apply not_true_iff_false in Hnone. apply Hnone.
    apply existsb_elem_of. exists l. split; [done|].
    apply existsb_elem_of. by exists G.
  - intros [Hin Hnone]. split; [done|].
    apply not_true_iff_false. intros Hsome.
    apply existsb_elem_of in Hsome as (l & Hl & Hsel).
    apply existsb_elem_of in Hsel as (G & HG & Hmatch).
    eapply Hnone.
    + apply list_elem_of_fmap. exists G. split; [reflexivity | done].
    + cbn [Grouping.pullRequests]. apply elem_of_filter_bool. split; [done|].
      apply existsb_elem_of. by exists l.
Qed.

(** C4. For the group built for a selected label [G]: [G] is a prefix
    group exactly when [G] holds no colon and some available label's name
    starts with ["G:"]; the records of a prefix group are the input records
    with a label whose name starts with ["G:"], and the records of any other
    group are the input records with a label named exactly [G]. *)
Theorem group_membership_rule pullRequests groupByLabels availableLabels
    (i : nat) (G : string) :
  groupByLabels !! i = Some G ->
  exists g : PRGroup,
    groups pullRequests groupByLabels availableLabels !! i = Some g
    /\ label g = G
    /\ (isPrefix availableLabels G = true
        <-> (~ exists before after, G = before +:+ ":" +:+ after)
            /\ exists l rest, l ∈ availableLabels /\ name l = (G +:+ ":") +:+ rest)
    /\ (isPrefix availableLabels G = true ->
        forall pr,
          pr ∈ Grouping.pullRequests g
          <-> pr ∈ pullRequests
              /\ exists l rest, l ∈ labels pr /\ name l = (G +:+ ":") +:+ rest)
    /\ (isPrefix availableLabels G = false ->
        forall pr,
          pr ∈ Grouping.pullRequests g
          <-> pr ∈ pullRequests /\ exists l, l ∈ labels pr /\ name l = G).
Proof.
  intros HG. unfold groups. eexists. split.
  { rewrite list_lookup_fmap, HG. reflexivity. }
  cbn [label Grouping.pullRequests].
  split; [reflexivity|]. split; [apply isPrefix_spec|].
  fold (isPrefix availableLabels G).
  split; intros Hflag pr; rewrite elem_of_filter_bool, existsb_elem_of;
    (split; intros [Hin H]; (split; [exact Hin|])).
  - destruct H as (l & Hl & Hmatch).
    apply group_match_spec in Hmatch as [[_ [rest Hrest]] | [Hno _]]; [|congruence].
    by exists l, rest.
  - destruct H as (l & rest & Hl & Hrest). exists l. split; [done|].
    apply group_match_spec. left. split; [done | by exists rest].
  - destruct H as (l & Hl & Hmatch).
    apply group_match_spec in Hmatch as [[Hyes _] | [_ Hname]]; [congruence|].
    by exists l.
  - destruct H as (l & Hl & Hname). exists l. split; [done|].
    apply group_match_spec. right. by split.
Qed.

End GroupingClaims.

Lemma group_membership_rule_witness :
  exists g : Grouping.PRGroup,
    Grouping.groups [Samples.pr_bug; Samples.pr_feature_urgent; Samples.pr_bare]
      ["type"; "urgent"] Samples.scenario_labels !! 0%nat = Some g
    /\ Grouping.label g = "type"
    /\ (Grouping.isPrefix Samples.scenario_labels "type" = true
        <-> (~ exists before after, "type" = before +:+ ":" +:+ after)
            /\ exists l rest,
                 l ∈ Samples.scenario_labels /\ Types.name l = ("type" +:+ ":") +:+ rest)
    /\ (Grouping.isPrefix Samples.scenario_labels "type" = true ->
        forall pr,
          pr ∈ Grouping.pullRequests g
          <-> pr ∈ [Samples.pr_bug; Samples.pr_feature_urgent; Samples.pr_bare]
              /\ exists l rest,
                   l ∈ Types.labels pr /\ Types.name l = ("type" +:+ ":") +:+ rest)
    /\ (Grouping.isPrefix Samples.scenario_labels "type" = false ->
        forall pr,
          pr ∈ Grouping.pullRequests g
          <-> pr ∈ [Samples.pr_bug; Samples.pr_feature_urgent; Samples.pr_bare]
              /\ exists l, l ∈ Types.labels pr /\ Types.name l = "type").
Proof.
  apply (group_membership_rule
           [Samples.pr_bug; Samples.pr_feature_urgent; Samples.pr_bare]
           ["type"; "urgent"] Samples.scenario_labels 0 "type").
  reflexivity.
Defined.

(** The grouping scenario of the spec: ["type"] is a prefix group that
    takes the records labelled ["type:bug"] and ["type:feature"] and has the
    fallback colour, ["urgent"] is an exact group with the colour of its
    label, and the record without labels is the remainder. *)
Example grouping_scenario :
  Grouping.isPrefix Samples.scenario_labels "type" = true
  /\ Grouping.isPrefix Samples.scenario_labels "urgent" = false
  /\ Grouping.groups [Samples.pr_bug; Samples.pr_feature_urgent; Samples.pr_bare]
       ["type"; "urgent"] Samples.scenario_labels
     = [ {| Grouping.label := "type"; Grouping.labelColor := "6b7280";
            Grouping.pullRequests := [Samples.pr_bug; Samples.pr_feature_urgent] |};
         {| Grouping.label := "urgent"; Grouping.labelColor := "b60205";
            Grouping.pullRequests := [Samples.pr_feature_urgent] |} ]
  /\ Grouping.ungroupedPRs [Samples.pr_bug; Samples.pr_feature_urgent; Samples.pr_bare]
       ["type"; "urgent"] Samples.scenario_labels
     = [Samples.pr_bare].
Proof. repeat split. Qed.


Local Set Warnings "-clear-no-such-hyp".

(** ** More on the client-side filter *)
Section FilterFacts.
Import JS Types Hooks.
Variable toLowerCase : string -> string.

Lemma array_includes_spec {A} `{EqDecision A} (xs : list A) (x : A) :
  array_includes xs x = true <-> x ∈ xs.
Proof. unfold array_includes. apply bool_decide_eq_true. Qed.

Lemma list_check_spec {A} (field : option (list A)) (test : list A -> bool) :
  negb (constrains field && negb (test (entries field))) = true
  <-> forall x xs, field = Some (x :: xs) -> test (x :: xs) = true.
Proof.
  destruct field as [[|x xs]|]; cbn.
  - split; [intros _ ? ? [=] | done].
  - rewrite negb_involutive. split; [by intros H ? ? [= <- <-] | intros H; by apply H].
  - split; [intros _ ? ? [=] | done].
Qed.

Lemma filter_bool_sublist {A} (f : A -> bool) (l : list A) : sublist (List.filter f l) l.
Proof.
  induction l as [|x l IH]; cbn; [constructor|].
  destruct (f x); by constructor.
Qed.

(** The filter only selects: its result lists some of the input records,
    each as often as the input has it and in the order of the input; it
    never adds, repeats or reorders a record. *)
Theorem filteredPullRequests_sublist (filters : FilterOptions)
    (pullRequests : list PullRequest) :
  sublist (filteredPullRequests toLowerCase filters pullRequests) pullRequests.
Proof. apply filter_bool_sublist. Qed.

(** What the filter keeps: the records that satisfy every field that is
    present and not empty (AND across fields), where a list field is
    satisfied by any one of its entries (OR within a field): the state, the
    repository full name and the author login must be an entry; some label
    name, some assignee, some requested reviewer must be an entry; the
    lower-cased query must occur in the lower-cased title, in the decimal
    number, or in the lower-cased author login; and the creation date must
    not compare before [dateFrom] nor after [dateTo]. *)
Theorem filteredPullRequests_spec (filters : FilterOptions)
    (pullRequests : list PullRequest) (pr : PullRequest) :
  pr ∈ filteredPullRequests toLowerCase filters pullRequests
  <-> pr ∈ pullRequests
      /\ (forall x xs, f_states filters = Some (x :: xs) -> state pr ∈ x :: xs)
      /\ (forall x xs, f_repositories filters = Some (x :: xs) ->
            fullName (repository pr) ∈ x :: xs)
      /\ (forall x xs, f_labels filters = Some (x :: xs) ->
            exists l, l ∈ labels pr /\ name l ∈ x :: xs)
      /\ (forall x xs, f_assignees filters = Some (x :: xs) ->
            exists a, a ∈ assignees pr /\ a ∈ x :: xs)
      /\ (forall x xs, f_authors filters = Some (x :: xs) -> login (author pr) ∈ x :: xs)
      /\ (forall x xs, f_reviewers filters = Some (x :: xs) ->
            exists r, r ∈ reviewers pr /\ r ∈ x :: xs)
      /\ (forall c q, f_searchQuery filters = Some (String c q) ->
            (exists before after,
                toLowerCase (title pr) = before +:+ toLowerCase (String c q) +:+ after)
            \/ (exists before after,
                   toString (number pr) = before +:+ toLowerCase (String c q) +:+ after)
            \/ (exists before after,
                   toLowerCase (login (author pr))
                   = before +:+ toLowerCase (String c q) +:+ after))
      /\ (forall d, f_dateFrom filters = Some d -> date_lt (createdAt pr) d = false)
      /\ (forall d, f_dateTo filters = Some d -> date_gt (createdAt pr) d = false).
Proof.
  unfold filteredPullRequests. rewrite elem_of_filter_bool. unfold keeps.
  rewrite !andb_true_iff.
  unfold passes_states, passes_repositories, passes_labels, passes_assignees,
    passes_authors, passes_reviewers.
  rewrite (list_check_spec (f_states filters) (fun l => array_includes l (state pr))).
  rewrite (list_check_spec (f_repositories filters)
             (fun l => array_includes l (fullName (repository pr)))).
  rewrite (list_check_spec (f_authors filters)
             (fun l => array_includes l (login (author pr)))).
  rewrite !list_check_spec.
  assert (Hany : forall (have : list string) (want : list string),
             existsb (fun w => array_includes have w) want = true
             <-> exists h, h ∈ have /\ h ∈ want).
  { intros have want. rewrite existsb_elem_of. split.
    - intros (w & Hw & Hin). apply array_includes_spec in Hin. by exists w.
    - intros (h & Hh & Hw). exists h. split; [done | by apply array_includes_spec]. }
  assert (Hq : passes_searchQuery toLowerCase filters pr = true
               <-> forall c q, f_searchQuery filters = Some (String c q) ->
                     (exists before after,
                         toLowerCase (title pr) = before +:+ toLowerCase (String c q) +:+ after)
                     \/ (exists before after,
                            toString (number pr) = before +:+ toLowerCase (String c q) +:+ after)
                     \/ (exists before after,
                            toLowerCase (login (author pr))
                            = before +:+ toLowerCase (String c q) +:+ after)).
  { unfold passes_searchQuery. destruct (f_searchQuery filters) as [[|c q]|]; cbn [truthy_opt_string truthy_string andb negb default].
    - split; [intros _ ? ? [=] | done].
    - rewrite negb_true_iff, <- !negb_orb, negb_false_iff, !orb_true_iff, !includes_spec.
      split.
      + intros [[H | H] | H] c' q' [= <- <-]; auto.
      + intros H. destruct (H c q eq_refl) as [? | [? | ?]]; auto.
    - split; [intros _ ? ? [=] | done]. }
  assert (Hfrom : passes_dateFrom filters pr = true
                  <-> forall d, f_dateFrom filters = Some d -> date_lt (createdAt pr) d = false).
  { unfold passes_dateFrom. destruct (f_dateFrom filters) as [d|].
    - rewrite negb_true_iff. split; [by intros H ? [= <-] | intros H; by apply H].
    - split; [intros _ ? [=] | done]. }
  assert (Hto : passes_dateTo filters pr = true
                <-> forall d, f_dateTo filters = Some d -> date_gt (createdAt pr) d = false).
  { unfold passes_dateTo. destruct (f_dateTo filters) as [d|].
    - rewrite negb_true_iff. split; [by intros H ? [= <-] | intros H; by apply H].
    - split; [intros _ ? [=] | done]. }
  rewrite Hq, Hfrom, Hto.
  assert (Hlabels : forall want : list string,
             existsb (fun filterLabel => array_includes (map name (labels pr)) filterLabel) want
             = true
             <-> exists l, l ∈ labels pr /\ name l ∈ want).
  { intros want. rewrite Hany. split.
    - intros (h & Hh & Hw). apply list_elem_of_fmap in Hh as (l & -> & Hl). by exists l.
    - intros (l & Hl & Hw). exists (name l). split; [by apply list_elem_of_fmap_2 | done]. }
  split.
  - intros [Hin [[[[[[[[Hs Hr] Hl] Ha] Hau] Hrv] Hquery] Hdf] Hdt]].
    repeat split; try done.
    + intros x xs E. by apply array_includes_spec, Hs.
    + intros x xs E. by apply array_includes_spec, Hr.
    + intros x xs E. by apply Hlabels, Hl.
    + intros x xs E. by apply Hany, Ha.
    + intros x xs E. by apply array_includes_spec, Hau.
    + intros x xs E. by apply Hany, Hrv.
  - intros (Hin & Hs & Hr & Hl & Ha & Hau & Hrv & Hquery & Hdf & Hdt).
    repeat split; try done.
    + intros x xs E. by apply array_includes_spec, Hs.
    + intros x xs E. by apply array_includes_spec, Hr.
    + intros x xs E. by apply Hlabels, Hl.
    + intros x xs E. by apply Hany, Ha.
    + intros x xs E. by apply array_includes_spec, Hau.
    + intros x xs E. by apply Hany, Hrv.
Qed.

(** The search sees the query, the title and the author login through
    [toLowerCase] only, whatever that function folds: two queries that are
    both empty or both not, and that have the same lower-case form, decide
    alike on two records whose titles and author logins have the same
    lower-case forms and whose numbers agree. So a query and a title that
    differ in the case of their letters match as if they did not. *)
Theorem passes_searchQuery_ignores_case (filters filters' : FilterOptions)
    (pr pr' : PullRequest) (q q' : string) :
  f_searchQuery filters = Some q ->
  f_searchQuery filters' = Some q' ->
  (q = EmptyString <-> q' = EmptyString) ->
  toLowerCase q = toLowerCase q' ->
  toLowerCase (title pr) = toLowerCase (title pr') ->
  number pr = number pr' ->
  toLowerCase (login (author pr)) = toLowerCase (login (author pr')) ->
  passes_searchQuery toLowerCase filters pr = passes_searchQuery toLowerCase filters' pr'.
Proof.
  intros Hf Hf' Hempty Hq Ht Hn Ha. unfold passes_searchQuery.
  rewrite Hf, Hf'. cbn [truthy_opt_string default from_option]. unfold Datatypes.id.
  rewrite Hq, Ht, Hn, Ha.
  destruct q as [|a q], q' as [|a' q']; cbn [truthy_string]; try reflexivity.
  - discriminate (proj1 Hempty eq_refl).
  - discriminate (proj2 Hempty eq_refl).
Qed.

(** The date range is closed at both ends: with valid dates everywhere a
    record passes both date checks exactly when its creation time lies
    between [dateFrom] and [dateTo], the bounds included. An invalid date
    never rejects: a bound that is an invalid date constrains nothing, and a
    record whose creation date is invalid passes every bound. *)
Theorem date_checks_inclusive (filters : FilterOptions) (pr : PullRequest) :
  (forall from to created : Z,
      f_dateFrom filters = Some (mkDate (Some from)) ->
      f_dateTo filters = Some (mkDate (Some to)) ->
      createdAt pr = mkDate (Some created) ->
      (passes_dateFrom filters pr && passes_dateTo filters pr = true
       <-> from <= created <= to))
  /\ (f_dateFrom filters = Some (mkDate None) -> passes_dateFrom filters pr = true)
  /\ (f_dateTo filters = Some (mkDate None) -> passes_dateTo filters pr = true)
  /\ (createdAt pr = mkDate None ->
      passes_dateFrom filters pr = true /\ passes_dateTo filters pr = true).
Proof.
  unfold passes_dateFrom, passes_dateTo, date_gt, date_lt.
  split; [|split; [|split]].
  - intros from to created -> -> ->. cbn.
    rewrite andb_true_iff, !negb_true_iff, !Z.ltb_ge. lia.
  - intros ->. cbn. by destruct (getTime (createdAt pr)).
  - intros ->. cbn. reflexivity.
  - intros ->. cbn. split.
    + by destruct (f_dateFrom filters).
    + by destruct (f_dateTo filters) as [[[?|]]|].
Qed.

End FilterFacts.

Lemma passes_searchQuery_ignores_case_witness :
  Hooks.passes_searchQuery JS.toLowerCase_ascii (Samples.query_filters "WIDGET")
    (Samples.app_pr 42 Types.st_open [])
  = Hooks.passes_searchQuery JS.toLowerCase_ascii (Samples.query_filters "widget")
      (Samples.app_pr 42 Types.st_closed []).
Proof.
  apply (passes_searchQuery_ignores_case JS.toLowerCase_ascii _ _ _ _ "WIDGET" "widget");
    first [ reflexivity | split; discriminate ].
Defined.

Lemma date_checks_inclusive_witness :
  Hooks.passes_dateFrom Samples.january_filters (Samples.app_pr 42 Types.st_open [])
  && Hooks.passes_dateTo Samples.january_filters (Samples.app_pr 42 Types.st_open []) = true
  <-> 1703894400000 <= 1703894400000 <= 1706745600000.
Proof.
  apply (proj1 (date_checks_inclusive Samples.january_filters
                  (Samples.app_pr 42 Types.st_open []))
           1703894400000 1706745600000 1703894400000); reflexivity.
Defined.


(** ** More on the normaliser *)
Section NormaliserInvariants.
Import JS Types.
Variable Date_parse : string -> option Z.

(** The fields of a normalised record agree with one another: its state
    is ['draft'] exactly when [isDraft] is set; it is ['merged'] exactly when
    [isDraft] is not set and [mergedAt] holds a date; [mergedAt] and
    [closedAt] hold a date exactly when the wire record has a non-empty
    [merged_at], respectively [closed_at] (no default date is made up); and
    [isApproved] is never set. *)
Theorem transformPullRequest_fields_agree (pr : GitHub.GitHubPullRequest) :
  let out := transformPullRequest Date_parse pr in
  (state out = st_draft <-> isDraft out = true)
  /\ (state out = st_merged <-> isDraft out = false /\ is_Some (mergedAt out))
  /\ (is_Some (mergedAt out) <-> exists c ts, GitHub.merged_at pr = Some (String c ts))
  /\ (is_Some (closedAt out) <-> exists c ts, GitHub.closed_at pr = Some (String c ts))
  /\ isApproved out = false.
Proof.
  cbn zeta. unfold transformPullRequest; cbn [state isDraft mergedAt closedAt isApproved].
  assert (Hopt : forall s : option string,
             is_Some (opt_Date Date_parse s) <-> exists c ts, s = Some (String c ts)).
  { intros [[|c ts]|]; cbn.
    - split; [intros [? [=]] | intros (? & ? & [=])].
    - split; [intros _; by exists c, ts | intros _; by eexists].
    - split; [intros [? [=]] | intros (? & ? & [=])]. }
  split; [|split; [|split; [|split]]].
  - destruct (GitHub.draft pr); [done|].
    destruct (truthy_opt_string (GitHub.merged_at pr)); [done|].
    by destruct (GitHub.state pr).
  - rewrite Hopt. destruct (GitHub.draft pr).
    + split; [done | intros [[=] _]].
    + destruct (GitHub.merged_at pr) as [[|c ts]|]; cbn.
      * destruct (GitHub.state pr); (split; [done | intros [_ (? & ? & [=])]]).
      * split; [intros _; split; [done | by exists c, ts] | done].
      * destruct (GitHub.state pr); (split; [done | intros [_ (? & ? & [=])]]).
  - apply Hopt.
  - apply Hopt.
  - reflexivity.
Qed.

End NormaliserInvariants.


(** ** More on [fetch] *)
Section FetchOutcomes.
Import JS Async Runtime Client.
Context {T : Type}.
Implicit Types (c : GitHubClient) (w : World T).

(** How a call that gets past the guard ends, whether the guard lets it
    pass because the count is not zero or because the reset time is over. A
    failure of the network is passed on as it is. A success response yields its parsed body, or a
    [SyntaxError] when the body is not JSON. Any other response never yields
    a value: the call is rejected with a [GitHubAPIError] that carries the
    HTTP status and the error body, and whose message is never empty: the
    body's [message] when it has a non-empty one, the status text when the
    body is not JSON and the status text is not empty, and ["GitHub API
    request failed"] otherwise. *)
Theorem fetch_outcome c (endpoint : string) (options : RequestInit) w :
  fst (check_rate_limit c w) = None ->
  match remote w (sent w) (request_of c endpoint options) with
  | Rejected e => fst (fst (fetch c endpoint options w)) = Rejected e
  | Fulfilled response =>
      if ok response then
        match json response with
        | Some j => fst (fst (fetch c endpoint options w)) = Fulfilled (as_data j)
        | None => fst (fst (fetch c endpoint options w)) = Rejected SyntaxError
        end
      else
        exists (m : string) (body : GitHub.GitHubAPIErrorBody),
          fst (fst (fetch c endpoint options w))
          = Rejected (GitHubAPIError m (Some (status response)) (Some body))
          /\ m <> EmptyString
          /\ (forall j, json response = Some j -> body = as_error j)
          /\ (json response = None -> GitHub.err_message body = Some (statusText response))
          /\ (forall a s, GitHub.err_message body = Some (String a s) -> m = String a s)
          /\ (GitHub.err_message body = None \/ GitHub.err_message body = Some EmptyString ->
              m = "GitHub API request failed")
  end.
Proof.
  intros Hpass. unfold fetch.
  destruct (check_rate_limit_world c w) as [k Hw].
  destruct (check_rate_limit c w) as [[exn|] w1]; [discriminate Hpass|].
  cbn in Hw. subst w1. unfold global_fetch; cbn.
  destruct (remote w (sent w) (request_of c endpoint options)) as [response|e]; [|done].
  destruct (ok response); cbn; [by destruct (json response)|].
  eexists _, _. split; [reflexivity|].
  destruct (json response) as [j|]; cbn.
  - destruct (GitHub.err_message (as_error j)) as [[|a s]|] eqn:Hm; cbn;
      repeat split; try done; try (intros; simplify_eq; done);
      try (intros [? | ?]; simplify_eq; done).
  - destruct (statusText response) as [|a s] eqn:Hst; cbn;
      repeat split; try done; try (intros; simplify_eq; done);
      try (intros [? | ?]; simplify_eq; done).
Qed.

(** The counters set by one answer decide the next call. When the answer
    to a call that got past the guard, successful or not, carries a remaining-count header that reads zero and
    a reset header that reads [R] seconds, every later call made before
    [R * 1000] on the clock is rejected without a request being sent; when
    the remaining-count header reads a non-zero number, the next call is
    sent whatever the clock says. *)
Theorem fetch_headers_decide_next_call c (endpoint : string) (options : RequestInit) w
    (response : Response T) (remaining : string) :
  fst (check_rate_limit c w) = None ->
  remote w (sent w) (request_of c endpoint options) = Fulfilled response ->
  response_headers response !! "x-ratelimit-remaining" = Some remaining ->
  remaining <> EmptyString ->
  let c1 := snd (fst (fetch c endpoint options w)) in
  (forall (reset : string) (R : Z) (endpoint' : string) (options' : RequestInit) w2,
      parseInt remaining = Num 0 ->
      response_headers response !! "x-ratelimit-reset" = Some reset ->
      reset <> EmptyString ->
      parseInt reset = Num R ->
      Z.of_N (clock w2 (reads w2)) < R * 1000 ->
      exists e,
        fetch c1 endpoint' options' w2
        = (Rejected e, c1, mkWorld (clock w2) (S (reads w2)) (remote w2) (sent w2)))
  /\ (forall (n : Z) (endpoint' : string) (options' : RequestInit) w2,
         parseInt remaining = Num n ->
         n <> 0 ->
         sent (snd (fetch c1 endpoint' options' w2))
         = sent w2 ++ [request_of c1 endpoint' options']).
Proof.
  intros Hpass Hresp Hhdr Hne c1.
  assert (Hc1 : c1 = update_rate_limit c response).
  { subst c1.
    destruct (check_rate_limit c w) as [[exn|] w1] eqn:Hguard; [discriminate Hpass|].
    rewrite (proj2 (fetch_unguarded c endpoint options w w1 Hguard)).
    by rewrite Hresp. }
  destruct (update_rate_limit_fields c response) as (_ & _ & Hr & Hs).
  rewrite Hhdr in Hr. destruct remaining as [|a s]; [done|].
  split.
  - intros reset R endpoint' options' w2 Hzero Hreset Hrne HR Hclock.
    rewrite Hreset in Hs. destruct reset as [|a' s']; [done|].
    rewrite Hzero in Hr. rewrite HR in Hs. cbn [times] in Hs.
    rewrite <- Hc1 in Hr, Hs.
    destruct (check_rate_limit_fires c1 w2 (R * 1000) Hr Hs Hclock) as [e He].
    exists e. exact (fetch_guarded c1 endpoint' options' w2 e _ He).
  - intros n endpoint' options' w2 Hn Hn0.
    rewrite Hn in Hr. rewrite <- Hc1 in Hr.
    assert (Hopen : rateLimitRemaining c1 <> Some (Num 0)).
    { rewrite Hr. intros [= ?]. done. }
    exact (proj1 (fetch_unguarded c1 endpoint' options' w2 w2
                    (check_rate_limit_open c1 w2 Hopen))).
Qed.

(** A client can only be made with a token: the empty token is refused;
    any other token gives a client for [https://api.github.com] that has no
    counters yet, so that its first call is always sent, whatever the clock
    says. *)
Theorem createGitHubClient_spec (token : string) :
  (token = EmptyString ->
   createGitHubClient token = Rejected (Error "GitHub token is required"))
  /\ (token <> EmptyString ->
      exists c,
        createGitHubClient token = Fulfilled c
        /\ Client.token c = token
        /\ baseUrl c = "https://api.github.com"
        /\ forall (endpoint : string) (options : RequestInit) w,
             sent (snd (fetch c endpoint options w))
             = sent w ++ [request_of c endpoint options]).
Proof.
  split.
  - intros ->. reflexivity.
  - intros Hne. destruct token as [|a s]; [done|].
    eexists. split; [reflexivity|]. repeat split.
    intros endpoint options w.
    refine (proj1 (fetch_unguarded _ endpoint options w w (check_rate_limit_open _ w _))).
    cbn. discriminate.
Qed.

End FetchOutcomes.

Lemma fetch_outcome_witness :
  exists (m : string) (body : GitHub.GitHubAPIErrorBody),
    fst (fst (Client.fetch Samples.exhausted_client "/user/repos"
                {| Client.init_headers := [] |} MoreSamples.world_after_reset))
    = Async.Rejected (Async.GitHubAPIError m (Some 403) (Some body))
    /\ m <> EmptyString
    /\ (forall j, Client.json Samples.forbidden = Some j -> body = Client.as_error j)
    /\ (Client.json Samples.forbidden = None ->
        GitHub.err_message body = Some (Client.statusText Samples.forbidden))
    /\ (forall a s, GitHub.err_message body = Some (String a s) -> m = String a s)
    /\ (GitHub.err_message body = None \/ GitHub.err_message body = Some EmptyString ->
        m = "GitHub API request failed").
Proof.
  refine (fetch_outcome Samples.exhausted_client "/user/repos"
            {| Client.init_headers := [] |} MoreSamples.world_after_reset _).
  reflexivity.
Defined.

Lemma fetch_headers_decide_next_call_witness :
  exists e,
    Client.fetch
      (snd (fst (Client.fetch Samples.fresh_client "/user/repos"
                   {| Client.init_headers := [] |} Samples.world_403)))
      "/user/repos" {| Client.init_headers := [] |} Samples.world_403
    = (Async.Rejected e,
       snd (fst (Client.fetch Samples.fresh_client "/user/repos"
                   {| Client.init_headers := [] |} Samples.world_403)),
       Client.mkWorld (Client.clock Samples.world_403) 1
         (Client.remote Samples.world_403) []).
Proof.
  refine (proj1 (fetch_headers_decide_next_call Samples.fresh_client "/user/repos"
                   {| Client.init_headers := [] |} Samples.world_403 Samples.forbidden "0"
                   _ _ _ _)
            "1700000000" 1700000000 "/user/repos" {| Client.init_headers := [] |}
            Samples.world_403 _ _ _ _ _);
    first [ reflexivity | discriminate ].
Defined.

Lemma createGitHubClient_spec_witness :
  exists c,
    Client.createGitHubClient "t0ken" = Async.Fulfilled c
    /\ Client.token c = "t0ken"
    /\ Client.baseUrl c = "https://api.github.com"
    /\ forall (endpoint : string) (options : Client.RequestInit) (w : Client.World unit),
         Client.sent (snd (Client.fetch c endpoint options w))
         = Client.sent w ++ [Client.request_of c endpoint options].
Proof.
  apply (proj2 (createGitHubClient_spec (T := unit) "t0ken")). discriminate.
Defined.

Section RequestHeaders.
Import JS Client.
Implicit Types (o extra : list (string * string)).

Lemma set_property_keys (k v : string) o :
  (set_property k v o).*1 = if decide (k ∈ o.*1) then o.*1 else o.*1 ++ [k].
Proof.
  induction o as [|[k' v'] o IH]; cbn; [done|].
  destruct (String.eqb_spec k k') as [->|Hne]; cbn.
  - rewrite decide_True by (left). done.
  - rewrite IH. destruct (decide (k ∈ o.*1)) as [Hin|Hnin].
    + rewrite decide_True by (by right). done.
    + rewrite decide_False; [done|]. intros Hin. apply elem_of_cons in Hin as [?|?]; done.
Qed.

Lemma set_property_NoDup (k v : string) o : NoDup o.*1 -> NoDup (set_property k v o).*1.
Proof.
  intros Hnd. rewrite set_property_keys. destruct (decide (k ∈ o.*1)); [done|].
  apply NoDup_app. repeat split; [done | | apply NoDup_singleton].
  intros x Hx Hx'. apply list_elem_of_singleton in Hx'. by subst.
Qed.

Lemma set_property_elem_of (k v : string) o (k' v' : string) :
  NoDup o.*1 ->
  (k', v') ∈ set_property k v o <-> (k' = k /\ v' = v) \/ (k' <> k /\ (k', v') ∈ o).
Proof.
  induction o as [|[k0 v0] o IH]; cbn [set_property]; intros Hnd.
  - rewrite list_elem_of_singleton. split.
    + intros [= -> ->]. by left.
    + intros [[-> ->] | [_ H]]; [done | by apply elem_of_nil in H].
  - rewrite fmap_cons in Hnd. apply NoDup_cons in Hnd as [Hfresh Hnd]. cbn in Hfresh.
    destruct (String.eqb_spec k k0) as [->|Hne].
    + rewrite !elem_of_cons. split.
      * intros [[= -> ->] | Hin]; [by left|]. right. split; [|by right].
        intros ->. apply Hfresh. by apply (list_elem_of_fmap_2 fst _ (k0, v')).
      * intros [[-> ->] | [Hk [[= -> ->] | Hin]]]; [by left | done | by right].
    + rewrite !elem_of_cons, (IH Hnd). split.
      * intros [[= -> ->] | [[-> ->] | [Hk Hin]]].
        -- right. split; [done | by left].
        -- by left.
        -- right. split; [done | by right].
      * intros [[-> ->] | [Hk [[= -> ->] | Hin]]].
        -- right. by left.
        -- by left.
        -- right. right. by split.
Qed.

Lemma spread_snoc o extra (kv : string * string) :
  spread o (extra ++ [kv]) = set_property (fst kv) (snd kv) (spread o extra).
Proof. unfold spread. by rewrite foldl_app. Qed.

(** Object spread: keys stay distinct, a key the second object lacks keeps
    the value of the first, and any other key takes the value the second
    object gives it last. *)
Lemma spread_spec o extra :
  NoDup o.*1 ->
  NoDup (spread o extra).*1
  /\ forall k v,
       (k, v) ∈ spread o extra
       <-> ((k ∉ extra.*1) /\ (k, v) ∈ o)
           \/ exists pre post, extra = pre ++ (k, v) :: post /\ (k ∉ post.*1).
Proof.
  intros Hnd. induction extra as [|[k0 v0] extra [IHnd IH]] using rev_ind.
  - split; [done|]. intros k v. cbn. split.
    + intros H. left. split; [apply not_elem_of_nil | done].
    + intros [[_ H] | (pre & post & Hpre & _)]; [done|]. by destruct pre.
  - rewrite spread_snoc. cbn [fst snd]. split; [by apply set_property_NoDup|].
    intros k v. rewrite (set_property_elem_of _ _ _ _ _ IHnd), IH. split.
    + intros [[-> ->] | [Hk [[Hnot Hin] | (pre & post & -> & Hpost)]]].
      * right. exists extra, []. split; [done | apply not_elem_of_nil].
      * left. split; [|done]. rewrite fmap_app. apply not_elem_of_app. split; [done|].
        cbn. intros H. apply list_elem_of_singleton in H. done.
      * right. exists pre, (post ++ [(k0, v0)]). split; [by rewrite <- app_assoc|].
        rewrite fmap_app. apply not_elem_of_app. split; [done|].
        cbn. intros H. apply list_elem_of_singleton in H. done.
    + intros [[Hnot Hin] | (pre & post & Heq & Hpost)].
      * rewrite fmap_app in Hnot. apply not_elem_of_app in Hnot as [Hnot Hk].
        right. split; [|left; by split].
        intros ->. apply Hk. cbn. by apply list_elem_of_singleton.
      * destruct post as [|p post _] using rev_ind.
        -- apply app_inj_tail in Heq as [-> [= -> ->]]. by left.
        -- rewrite app_comm_cons, app_assoc in Heq.
           apply app_inj_tail in Heq as [-> <-].
           rewrite fmap_app in Hpost. apply not_elem_of_app in Hpost as [Hpost Hk].
           right. split.
           ++ intros ->. apply Hk. cbn. by apply list_elem_of_singleton.
           ++ right. by exists pre, post.
Qed.

(** The headers of a request. Header names are distinct; a header the
    caller does not pass keeps its default, so that the bearer token, the
    GitHub media type and the JSON content type go out with every request
    whose caller does not override them; and a header the caller passes
    goes out with the value the caller gave it last. *)
Theorem request_of_headers (c : GitHubClient) (endpoint : string) (options : RequestInit) :
  let sent_headers := headers (request_of c endpoint options) in
  NoDup sent_headers.*1
  /\ (forall k v,
        (k, v) ∈ sent_headers
        <-> ((k ∉ (init_headers options).*1)
             /\ (k, v) ∈ [("Authorization", "Bearer " +:+ token c);
                          ("Accept", "application/vnd.github.v3+json");
                          ("Content-Type", "application/json")])
            \/ exists pre post,
                 init_headers options = pre ++ (k, v) :: post /\ (k ∉ post.*1))
  /\ (("Authorization" ∉ (init_headers options).*1) ->
      ("Authorization", "Bearer " +:+ token c) ∈ sent_headers).
Proof.
  cbn zeta. unfold request_of; cbn [headers].
  destruct (spread_spec [("Authorization", "Bearer " +:+ token c);
                         ("Accept", "application/vnd.github.v3+json");
                         ("Content-Type", "application/json")]
              (init_headers options)) as [Hnd Hmem].
  { cbn. repeat constructor; rewrite ?elem_of_cons, ?elem_of_nil; intros H;
      repeat destruct H as [H|H]; done. }
  split; [exact Hnd|]. split; [exact Hmem|].
  intros Hauth. apply Hmem. left. split; [done | by left].
Qed.

End RequestHeaders.

Lemma request_of_headers_witness :
  ("Authorization", "Bearer t0ken")
  ∈ Client.headers (Client.request_of Samples.fresh_client "/user/repos"
                      {| Client.init_headers := [("Accept", "application/json")] |}).
Proof.
  apply (proj2 (proj2 (request_of_headers Samples.fresh_client "/user/repos"
                         {| Client.init_headers := [("Accept", "application/json")] |}))).
  cbn. intros H. apply list_elem_of_singleton in H. discriminate H.
Defined.


(** ** More on label aggregation *)
Section AggregationCoverage.
Import JS Client Routes.
Implicit Types (m : LabelMap) (flat : list GitHub.GitHubLabel).

Lemma first_named_exists flat (k : string) :
  k ∈ GitHub.label_name <$> flat -> exists v, first_named flat k v.
Proof.
  induction flat as [|x flat IH]; cbn; intros Hk.
  - by apply elem_of_nil in Hk.
  - destruct (decide (GitHub.label_name x = k)) as [<-|Hne].
    + eexists. apply first_named_cons. by left.
    + apply elem_of_cons in Hk as [-> | Hk]; [done|].
      destruct (IH Hk) as [v Hv]. exists v. apply first_named_cons. by right.
Qed.

(** The loop only appends, and what it appends follows the input order. *)
Lemma add_labels_extends flat m :
  exists extra,
    foldl add_label m flat = m ++ extra
    /\ sublist (snd <$> extra) (Types.transformLabel <$> flat).
Proof.
  revert m; induction flat as [|x flat IH]; intros m; cbn [foldl].
  - exists []. split; [by rewrite app_nil_r | constructor].
  - destruct (add_label_cases m x) as [[_ ->] | [_ ->]].
    + destruct (IH m) as (extra & -> & Hsub). exists extra. split; [done|].
      cbn. by constructor.
    + destruct (IH (m ++ [(GitHub.label_name x, Types.transformLabel x)]))
        as (extra & -> & Hsub).
      exists ((GitHub.label_name x, Types.transformLabel x) :: extra).
      split; [by rewrite <- app_assoc|]. cbn. by constructor.
Qed.

(** No label name is lost and none is invented: the names of the aggregate
    are exactly the names that occur in some repository result; and the
    aggregate lists normal forms of input labels in the order in which the
    results list them, so that it is never longer than the input. *)
Theorem uniqueLabels_covers_every_name (results : list RepoLabels) :
  let flat := concat (labels <$> results) in
  (forall k : string,
      k ∈ Types.name <$> uniqueLabels results <-> k ∈ GitHub.label_name <$> flat)
  /\ sublist (uniqueLabels results) (Types.transformLabel <$> flat)
  /\ (length (uniqueLabels results) <= length flat)%nat.
Proof.
  intros flat. unfold uniqueLabels, Map_values.
  rewrite nested_loops_flat. fold flat.
  destruct (add_labels_spec flat []) as (_ & _ & Hmem); [constructor | constructor |].
  destruct (add_labels_extends flat []) as (extra & Hextra & Hsub).
  assert (Hsublist : sublist (map snd (foldl add_label [] flat))
                       (Types.transformLabel <$> flat)).
  { rewrite Hextra. exact Hsub. }
  split; [|split; [exact Hsublist|]].
  - intros k. split.
    + intros Hk. apply list_elem_of_fmap in Hk as (l & -> & Hl).
      apply list_elem_of_fmap in Hl as ([k v] & -> & Hkv).
      apply Hmem in Hkv as [Hnil | [_ (i & raw & Hi & Hk & -> & _)]].
      * by apply elem_of_nil in Hnil.
      * cbn. apply list_elem_of_fmap. exists raw. split; [done|].
        apply list_elem_of_lookup. by exists i.
    + intros Hk. destruct (first_named_exists flat k Hk) as [v Hv].
      assert (Hin : (k, v) ∈ foldl add_label [] flat).
      { apply Hmem. right. split; [apply not_elem_of_nil | done]. }
      destruct Hv as (i & raw & _ & -> & -> & _).
      apply list_elem_of_fmap. exists (Types.transformLabel raw). split; [done|].
      apply list_elem_of_fmap. by exists (GitHub.label_name raw, Types.transformLabel raw).
  - etrans; [exact (sublist_length _ _ Hsublist)|]. by rewrite length_fmap.
Qed.

End AggregationCoverage.


(** ** The token of a request *)
Section TokenFacts.
Import JS Async Client Token.

(** Where the token comes from. A non-empty environment token is used
    whatever the request carries; otherwise a non-empty [x-github-token]
    header is used; otherwise there is no token. A token that is returned
    is never the empty string, so the client constructor accepts it. *)
Theorem getGitHubToken_spec (env : option string) (request : option (gmap string string)) :
  (forall a s, env = Some (String a s) -> getGitHubToken env request = env)
  /\ (env = None \/ env = Some EmptyString ->
      forall headers a s,
        request = Some headers ->
        headers !! "x-github-token" = Some (String a s) ->
        getGitHubToken env request = Some (String a s))
  /\ (getGitHubToken env request = None
      <-> (env = None \/ env = Some EmptyString)
          /\ (request = None
              \/ exists headers,
                   request = Some headers
                   /\ (headers !! "x-github-token" = None
                       \/ headers !! "x-github-token" = Some EmptyString)))
  /\ (forall token,
        getGitHubToken env request = Some token ->
        token <> EmptyString /\ exists c, createGitHubClient token = Fulfilled c)
  /\ (hasEnvToken env = true <-> getGitHubToken env None = env /\ env <> None).
Proof.
  unfold getGitHubToken, hasEnvToken.
  split; [|split; [|split; [|split]]].
  - by intros a s ->.
  - intros Henv headers a s -> Hh. rewrite Hh.
    by destruct Henv as [-> | ->].
  - destruct env as [[|a s]|]; cbn.
    + destruct request as [headers|]; [|naive_solver].
      destruct (headers !! "x-github-token") as [[|a s]|] eqn:Hh; cbn; naive_solver.
    + naive_solver.
    + destruct request as [headers|]; [|naive_solver].
      destruct (headers !! "x-github-token") as [[|a s]|] eqn:Hh; cbn; naive_solver.
  - assert (Hok : forall a s, String a s <> EmptyString
                              /\ exists c, createGitHubClient (String a s) = Fulfilled c).
    { intros a s. split; [done|]. by eexists. }
    intros token. destruct env as [[|a s]|]; cbn.
    + destruct request as [headers|]; [|done].
      destruct (headers !! "x-github-token") as [[|a s]|]; cbn; [done | | done].
      intros [= <-]. apply Hok.
    + intros [= <-]. apply Hok.
    + destruct request as [headers|]; [|done].
      destruct (headers !! "x-github-token") as [[|a s]|]; cbn; [done | | done].
      intros [= <-]. apply Hok.
  - destruct env as [[|a s]|]; cbn; naive_solver.
Qed.

End TokenFacts.

Lemma getGitHubToken_spec_witness :
  Token.getGitHubToken (Some "env-token") (Some (<["x-github-token" := "header-token"]> ∅))
  = Some "env-token"
  /\ Token.getGitHubToken None (Some (<["x-github-token" := "header-token"]> ∅))
     = Some "header-token".
Proof.
  split.
  - apply (proj1 (getGitHubToken_spec (Some "env-token")
                    (Some (<["x-github-token" := "header-token"]> ∅))) "e"%char "nv-token").
    reflexivity.
  - apply (proj1 (proj2 (getGitHubToken_spec None
                           (Some (<["x-github-token" := "header-token"]> ∅))))
             (or_introl eq_refl) (<["x-github-token" := "header-token"]> ∅)
             "h"%char "eader-token"); reflexivity.
Defined.


(** ** Sorting, joining and splitting *)
Section SortFacts.
Import JS JSArray.
Context {A : Type} (cmp : A -> A -> JSNum).

Lemma sort_insert_Permutation (x : A) (l : list A) : sort_insert cmp x l ≡ₚ x :: l.
Proof.
  induction l as [|y l IH]; cbn; [done|].
  destruct (keeps_order (cmp x y)); [done|].
  rewrite IH. apply Permutation_swap.
Qed.

Lemma sort_Permutation (l : list A) : sort cmp l ≡ₚ l.
Proof.
  induction l as [|x l IH]; cbn; [done|].
  fold (sort cmp l). by rewrite sort_insert_Permutation, IH.
Qed.

(** When the comparator orders the elements by a key, the result is
    ordered by that key. *)
Context (key : A -> Z) (P : A -> Prop).
Hypothesis cmp_key :
  forall x y, P x -> P y -> keeps_order (cmp x y) = (key x <=? key y).

Lemma sort_insert_sorted (x : A) (l : list A) :
  P x -> Forall P l ->
  StronglySorted (fun a b => key a <= key b) l ->
  StronglySorted (fun a b => key a <= key b) (sort_insert cmp x l).
Proof.
  intros Hx HP Hsorted. induction Hsorted as [|y l Hs IH Hy]; cbn.
  - repeat constructor.
  - apply Forall_cons in HP as [Py HP]. rewrite (cmp_key x y Hx Py).
    destruct (Z.leb_spec (key x) (key y)) as [Hle|Hgt].
    + constructor; [by constructor|]. constructor; [done|].
      eapply Forall_impl; [exact Hy|]. cbn; lia.
    + constructor; [by apply IH|].
      rewrite sort_insert_Permutation. constructor; [lia | done].
Qed.

Lemma sort_sorted (l : list A) :
  Forall P l -> StronglySorted (fun a b => key a <= key b) (sort cmp l).
Proof.
  induction l as [|x l IH]; cbn; intros HP; [constructor|].
  apply Forall_cons in HP as [Px HP]. fold (sort cmp l).
  apply sort_insert_sorted; [done | | by apply IH].
  by rewrite sort_Permutation.
Qed.

End SortFacts.

Section PullsRoute.
Import JS JSArray Client Handlers.
Variable Date_parse : string -> option Z.

(** The list the pulls route answers with holds the normal form of every
    pull request of every repository result, each once, and nothing else;
    and when every [updated_at] parses to a valid date, the list runs from
    the most recently updated record to the least recently updated one. *)
Theorem allPullRequests_sorted (results : list RepoPullRequests) :
  allPullRequests Date_parse results
  ≡ₚ concat (map (fun result =>
                    map (Types.transformPullRequest Date_parse) (pullRequests result))
               results)
  /\ ((forall result pr,
         result ∈ results -> pr ∈ pullRequests result ->
         is_Some (Date_parse (GitHub.updated_at pr))) ->
      StronglySorted
        (fun a b =>
           exists ta tb,
             getTime (Types.updatedAt a) = Some ta
             /\ getTime (Types.updatedAt b) = Some tb
             /\ tb <= ta)
        (allPullRequests Date_parse results)).
Proof.
  split; [apply sort_Permutation|].
  intros Hvalid. unfold allPullRequests.
  set (all := concat _).
  assert (Hall : Forall (fun pr => is_Some (getTime (Types.updatedAt pr))) all).
  { apply Forall_forall. intros pr Hpr. subst all.
    apply list_elem_of_In, in_concat in Hpr as (l & Hl & Hpr).
    apply list_elem_of_In in Hl, Hpr.
    apply list_elem_of_fmap in Hl as (result & -> & Hresult).
    apply list_elem_of_fmap in Hpr as (raw & -> & Hraw).
    cbn. by eapply Hvalid. }
  pose proof (sort_sorted
                (fun a b => time_diff (Types.updatedAt b) (Types.updatedAt a))
                (fun pr => - default 0 (getTime (Types.updatedAt pr)))
                (fun pr => is_Some (getTime (Types.updatedAt pr)))) as Hsorted.
  assert (Hperm : Forall (fun pr => is_Some (getTime (Types.updatedAt pr)))
                    (sort (fun a b => time_diff (Types.updatedAt b) (Types.updatedAt a)) all)).
  { by rewrite sort_Permutation. }
  specialize (Hsorted ltac:(
    intros x y [tx Hx] [ty Hy]; unfold time_diff; rewrite Hx, Hy; cbn;
    destruct (Z.leb_spec (ty - tx) 0), (Z.leb_spec (- tx) (- ty)); lia) all Hall).
  revert Hsorted Hperm.
  generalize (sort (fun a b => time_diff (Types.updatedAt b) (Types.updatedAt a)) all).
  intros l Hsorted. induction Hsorted as [|a l Hs IH Ha]; intros Hperm; [constructor|].
  apply Forall_cons in Hperm as [[ta Hta] Hperm].
  constructor; [by apply IH|].
  apply Forall_forall. intros b Hb.
  pose proof (proj1 (Forall_forall _ _) Hperm b Hb) as [tb Htb].
  pose proof (proj1 (Forall_forall _ _) Ha b Hb) as Hle. cbn in Hle.
  rewrite Hta, Htb in Hle. cbn in Hle.
  exists ta, tb. repeat split; [done | done | lia].
Qed.

End PullsRoute.

Lemma allPullRequests_sorted_witness :
  StronglySorted
    (fun a b =>
       exists ta tb,
         JS.getTime (Types.updatedAt a) = Some ta
         /\ JS.getTime (Types.updatedAt b) = Some tb
         /\ tb <= ta)
    (Handlers.allPullRequests MoreSamples.two_dates MoreSamples.two_results).
Proof.
  apply (proj2 (allPullRequests_sorted MoreSamples.two_dates MoreSamples.two_results)).
  intros result pr Hresult Hpr.
  apply list_elem_of_singleton in Hresult as ->.
  cbn in Hpr. apply elem_of_cons in Hpr as [-> | Hpr].
  - by eexists.
  - apply list_elem_of_singleton in Hpr as ->. by eexists.
Defined.

(** The record updated on 1 January comes before the one updated on 30
    December, although the repository result lists it second. *)
Example allPullRequests_newest_first :
  Types.number <$> Handlers.allPullRequests MoreSamples.two_dates MoreSamples.two_results
  = [42; 41].
Proof. reflexivity. Qed.

Section TrimSplitJoin.
Import JS JSArray.

Lemma trimStart_head (c : ascii) (s : string) :
  is_space c = false -> trimStart (String c s) = String c s.
Proof. intros Hc. cbn. by rewrite Hc. Qed.

Lemma trimStart_cases (s : string) :
  trimStart s = EmptyString
  \/ exists c r, trimStart s = String c r /\ is_space c = false.
Proof.
  induction s as [|c s IH]; [by left|].
  cbn. destruct (is_space c) eqn:Hc; [exact IH|]. right. by exists c, s.
Qed.

Lemma trimEnd_head (c : ascii) (s : string) :
  is_space c = false -> exists r, trimEnd (String c s) = String c r.
Proof.
  intros Hc. cbn. rewrite Hc. destruct (trimEnd s); eauto.
Qed.

Lemma trimEnd_idemp (s : string) : trimEnd (trimEnd s) = trimEnd s.
Proof.
  induction s as [|c s IH]; [done|].
  cbn [trimEnd]. destruct (trimEnd s) as [|d r] eqn:Hr.
  - destruct (is_space c) eqn:Hc; [done|]. cbn. by rewrite Hc.
  - cbn [trimEnd] in *. by rewrite IH.
Qed.

Lemma trim_idemp (s : string) : trim (trim s) = trim s.
Proof.
  unfold trim. destruct (trimStart_cases s) as [-> | (c & r & -> & Hc)]; [done|].
  destruct (trimEnd_head c r Hc) as [r' Hr']. rewrite Hr'.
  rewrite (trimStart_head c r' Hc), <- Hr'. apply trimEnd_idemp.
Qed.

Lemma chars_app (a b : string) :
  list_ascii_of_string (a +:+ b) = list_ascii_of_string a ++ list_ascii_of_string b.
Proof.
  induction a as [|c a IH]; [done|].
  rewrite append_cons. cbn. by rewrite IH.
Qed.

Lemma trimStart_chars (c : ascii) (s : string) :
  c ∈ list_ascii_of_string (trimStart s) -> c ∈ list_ascii_of_string s.
Proof.
  induction s as [|d s IH]; cbn; [done|].
  destruct (is_space d); [intros H; right; by apply IH | done].
Qed.

Lemma trimEnd_chars (c : ascii) (s : string) :
  c ∈ list_ascii_of_string (trimEnd s) -> c ∈ list_ascii_of_string s.
Proof.
  induction s as [|d s IH]; cbn [trimEnd]; [done|].
  destruct (trimEnd s) as [|e r] eqn:Hr.
  - destruct (is_space d); cbn; [intros H; by apply elem_of_nil in H|].
    intros H. apply list_elem_of_singleton in H as ->. by left.
  - cbn. intros H. apply elem_of_cons in H as [-> | H]; [by left|].
    right. by apply IH.
Qed.

Lemma split_without_sep (sep : ascii) (s : string) :
  sep ∉ list_ascii_of_string s -> split sep s = [s].
Proof.
  induction s as [|c s IH]; cbn; [done|]. intros Hs.
  apply not_elem_of_cons in Hs as [Hne Hs].
  destruct (Ascii.eqb_spec c sep) as [->|_]; [done|]. by rewrite (IH Hs).
Qed.

Lemma split_app_sep (sep : ascii) (e rest : string) :
  sep ∉ list_ascii_of_string e ->
  split sep (e +:+ String sep rest) = e :: split sep rest.
Proof.
  induction e as [|c e IH]; intros He.
  - change (split sep (String sep rest) = EmptyString :: split sep rest).
    cbn [split]. by rewrite Ascii.eqb_refl.
  - cbn in He. apply not_elem_of_cons in He as [Hne He].
    rewrite append_cons. cbn [split].
    destruct (Ascii.eqb_spec c sep) as [->|_]; [done|].
    by rewrite (IH He).
Qed.

Lemma join_cons (sep x y : string) (l : list string) :
  join sep (x :: y :: l) = x +:+ sep +:+ join sep (y :: l).
Proof. reflexivity. Qed.

(** Joining with a separator and splitting at it gives the list back, if
    the list is not empty and no element holds the separator. *)
Lemma split_join (sep : ascii) (l : list string) :
  l <> [] ->
  Forall (fun e => sep ∉ list_ascii_of_string e) l ->
  split sep (join (String sep EmptyString) l) = l.
Proof.
  intros Hne Hall. induction Hall as [|e l He Hall IH]; [done|].
  destruct l as [|e' l].
  - by apply split_without_sep.
  - rewrite join_cons.
    change (String sep EmptyString +:+ join (String sep EmptyString) (e' :: l))
      with (String sep (join (String sep EmptyString) (e' :: l))).
    rewrite (split_app_sep sep e _ He). f_equal. by apply IH.
Qed.

Lemma split_pieces (sep : ascii) (s : string) :
  Forall (fun p => sep ∉ list_ascii_of_string p) (split sep s).
Proof.
  induction s as [|c s IH]; cbn.
  - repeat constructor. apply not_elem_of_nil.
  - destruct (Ascii.eqb_spec c sep) as [->|Hne].
    + constructor; [apply not_elem_of_nil | done].
    + destruct (split sep s) as [|h t]; [repeat constructor; cbn|].
      * intros H. apply list_elem_of_singleton in H. by subst.
      * apply Forall_cons in IH as [Hh Ht]. constructor; [|done].
        cbn. intros H. apply elem_of_cons in H as [-> | H]; done.
Qed.

End TrimSplitJoin.

Section SelectionRoundTrip.
Import JS JSArray Client Routes Handlers.

(** The configured default repositories: every entry is non-empty, has no
    white space at either end and holds no comma; an unset or empty
    variable gives no entry; and a non-empty list survives the trip the
    selection makes to the routes, where it is joined with commas and split
    at them again. *)
Theorem default_repositories_clean (env : option string) :
  (forall r, r ∈ default_repositories env ->
     r <> EmptyString /\ trim r = r /\ (","%char ∉ list_ascii_of_string r))
  /\ (env = None \/ env = Some EmptyString -> default_repositories env = [])
  /\ (default_repositories env <> [] ->
      split ","%char (join "," (default_repositories env)) = default_repositories env).
Proof.
  assert (Hclean : forall r, r ∈ default_repositories env ->
            r <> EmptyString /\ trim r = r /\ (","%char ∉ list_ascii_of_string r)).
  { intros r Hr. unfold default_repositories in Hr.
    apply elem_of_filter_bool in Hr as [Hr Hlen].
    apply list_elem_of_fmap in Hr as (piece & -> & Hpiece).
    split; [|split].
    - intros Hempty. rewrite Hempty in Hlen. discriminate Hlen.
    - apply trim_idemp.
    - intros Hcomma. apply trimEnd_chars, trimStart_chars in Hcomma.
      pose proof (split_pieces ","%char
                    (if truthy_opt_string env then default EmptyString env
                     else EmptyString)) as Hpieces.
      by apply (proj1 (Forall_forall _ _) Hpieces piece Hpiece). }
  split; [exact Hclean|]. split.
  - by intros [-> | ->].
  - intros Hne. apply split_join; [done|].
    apply Forall_forall. intros r Hr. by apply Hclean.
Qed.

(** The selection reaches the routes as one comma-joined string. For a
    non-empty selection of names ["owner/name"] where neither part holds a
    comma or a slash and the name has no white space at either end, the
    refs the routes dispatch are exactly the selected repositories, in the
    order of the selection. *)
Theorem repoList_of_joined_names (selection : list (string * string)) :
  selection <> [] ->
  (forall o n, (o, n) ∈ selection ->
     (","%char ∉ list_ascii_of_string o) /\ ("/"%char ∉ list_ascii_of_string o)
     /\ (","%char ∉ list_ascii_of_string n) /\ ("/"%char ∉ list_ascii_of_string n)
     /\ trim (o +:+ "/" +:+ n) = o +:+ "/" +:+ n) ->
  repoList (join "," ((fun p => fst p +:+ "/" +:+ snd p) <$> selection))
  = (fun p => {| owner := Some (fst p); repo := Some (snd p) |}) <$> selection.
Proof.
  intros Hne Hwf. unfold repoList.
  rewrite split_join.
  - change (map ?f ?l) with (f <$> l). rewrite <- list_fmap_compose.
    apply Forall_fmap_ext_1, Forall_forall. intros [o n] Hin. cbn.
    destruct (Hwf o n Hin) as (_ & Ho & _ & Hn & Htrim).
    fold (trim (o +:+ "/" +:+ n)). rewrite Htrim.
    change (o +:+ "/" +:+ n) with (o +:+ String "/"%char n).
    rewrite (split_app_sep "/"%char o n Ho), (split_without_sep "/"%char n Hn).
    reflexivity.
  - by destruct selection.
  - apply Forall_fmap, Forall_forall. intros [o n] Hin. cbn.
    destruct (Hwf o n Hin) as (Ho & _ & Hn & _ & _).
    rewrite !chars_app. cbn. rewrite !elem_of_app, elem_of_cons.
    intros [? | [[=] | ?]]; done.
Qed.

End SelectionRoundTrip.

Lemma default_repositories_clean_witness :
  Handlers.default_repositories (Some " acme/widgets , ,acme/gadgets")
  = ["acme/widgets"; "acme/gadgets"]
  /\ JS.split ","%char
       (JSArray.join "," (Handlers.default_repositories (Some " acme/widgets , ,acme/gadgets")))
     = Handlers.default_repositories (Some " acme/widgets , ,acme/gadgets").
Proof.
  split; [reflexivity|].
  apply (proj2 (proj2 (default_repositories_clean (Some " acme/widgets , ,acme/gadgets")))).
  discriminate.
Defined.

Lemma repoList_of_joined_names_witness :
  Routes.repoList (JSArray.join "," ["acme/widgets"; "acme/gadgets"])
  = [Samples.ref_of "acme" "widgets"; Samples.ref_of "acme" "gadgets"].
Proof.
  apply (repoList_of_joined_names [("acme", "widgets"); ("acme", "gadgets")]);
    [discriminate|].
  intros o n Hin.
  apply elem_of_cons in Hin as [[= -> ->] | Hin];
    [|apply list_elem_of_singleton in Hin as [= -> ->]].
  - repeat split; try reflexivity; vm_compute; intros H; apply list_elem_of_In in H;
      cbn in H; intuition discriminate.
  - repeat split; try reflexivity; vm_compute; intros H; apply list_elem_of_In in H;
      cbn in H; intuition discriminate.
Defined.


(** ** The single-repository operations *)
Section EndpointFacts.
Import JS JSArray Async Client Endpoints.




(** A client that is not out of quota sends, for one call of
    [getPullRequests], exactly one request, to that URL and with the three
    default headers. *)
Theorem getPullRequests_sends_one_request {T} (c : GitHubClient) (owner repo : option string)
    (options : FetchPullRequestsOptions) (w : World T) :
  rateLimitRemaining c <> Some (Num 0) ->
  sent (snd (getPullRequests c owner repo options w))
  = sent w
    ++ [ {| url := baseUrl c +:+ pulls_endpoint owner repo options;
            headers := [("Authorization", "Bearer " +:+ token c);
                        ("Accept", "application/vnd.github.v3+json");
                        ("Content-Type", "application/json")] |} ].
Proof.
  intros Hrem. unfold getPullRequests.
  rewrite (proj1 (fetch_unguarded c _ _ w w (check_rate_limit_open c w Hrem))).
  reflexivity.
Qed.

End EndpointFacts.

(** A hostile [state] cannot add a parameter; a malformed ref is requested
    under the name [undefined]. *)
Example pulls_endpoint_encodes :
  Endpoints.pulls_endpoint (Some "broken") None
    {| Client.opt_state := Some "all&page=9"; Client.opt_sort := None;
       Client.opt_direction := None; Client.perPage := Some 0; Client.page := None |}
  = "/repos/broken/undefined/pulls?state=all%26page%3D9&sort=created&direction=desc&per_page=30&page=1".
Proof. reflexivity. Qed.


Lemma getPullRequests_sends_one_request_witness :
  Client.sent (snd (Endpoints.getPullRequests Samples.fresh_client (Some "acme")
                      (Some "widgets") Samples.default_options Samples.world_403))
  = [ {| Client.url := "https://api.github.com/repos/acme/widgets/pulls?state=open&sort=created&direction=desc&per_page=30&page=1";
         Client.headers := [("Authorization", "Bearer t0ken");
                            ("Accept", "application/vnd.github.v3+json");
                            ("Content-Type", "application/json")] |} ].
Proof.
  apply (getPullRequests_sends_one_request Samples.fresh_client (Some "acme")
           (Some "widgets") Samples.default_options Samples.world_403).
  discriminate.
Defined.


(** ** Selections and criteria *)
Section ToggleFacts.
Import JS Types Hooks Components.
Variable toLowerCase : string -> string.

Lemma toggle_elem_of {A} `{EqDecision A} (differs : A -> A -> bool) (l : list A) (x y : A) :
  (forall a b, differs a b = true <-> a <> b) ->
  y ∈ (if array_includes l x then List.filter (fun a => differs a x) l else l ++ [x])
  <-> (y <> x /\ y ∈ l) \/ (y = x /\ x ∉ l).
Proof.
  intros Hdiff. destruct (array_includes l x) eqn:Hin.
  - apply array_includes_spec in Hin. rewrite elem_of_filter_bool, Hdiff.
    split; [intros [? ?]; left; by split | intros [[? ?] | [_ ?]]; done].
  - assert (Hnin : x ∉ l).
    { intros H'. apply array_includes_spec in H'. congruence. }
    rewrite elem_of_app, list_elem_of_singleton. split.
    + intros [Hy | ->]; [left; split; [by intros -> | done] | by right].
    + intros [[_ ?] | [-> _]]; [by left | by right].
Qed.

Lemma toggle_NoDup {A} `{EqDecision A} (differs : A -> A -> bool) (l : list A) (x : A) :
  NoDup l ->
  NoDup (if array_includes l x then List.filter (fun a => differs a x) l else l ++ [x]).
Proof.
  intros Hnd. destruct (array_includes l x) eqn:Hin.
  - eapply sublist_NoDup; [exact Hnd | apply filter_bool_sublist].
  - apply NoDup_app. repeat split; [done | | apply NoDup_singleton].
    intros y Hy Hy'. apply list_elem_of_singleton in Hy' as ->.
    apply array_includes_spec in Hy. congruence.
Qed.

Lemma string_differs (a b : string) : negb (String.eqb a b) = true <-> a <> b.
Proof. rewrite negb_true_iff. apply String.eqb_neq. Qed.

(** Toggling an entry of a selection (of repositories, of grouping
    labels) flips that entry and no other: afterwards the entry is selected
    exactly when it was not, and any other name is selected exactly when it
    was. A selection without repetitions stays without repetitions, and
    toggling an unselected entry twice gives the selection back. *)
Theorem toggle_selection_spec (selected : list string) (x : string) :
  (forall y, y ∈ handleToggleRepository selected x
             <-> (y <> x /\ y ∈ selected) \/ (y = x /\ x ∉ selected))
  /\ (NoDup selected -> NoDup (handleToggleRepository selected x))
  /\ (x ∉ selected ->
      handleToggleRepository (handleToggleRepository selected x) x = selected)
  /\ toggleLabel selected x = handleToggleRepository selected x.
Proof.
  split; [|split; [|split]].
  - intros y. apply (toggle_elem_of (fun a b => negb (String.eqb a b))).
    apply string_differs.
  - apply (toggle_NoDup (fun a b => negb (String.eqb a b))).
  - intros Hx. unfold handleToggleRepository.
    assert (Hno : array_includes selected x = false).
    { apply not_true_iff_false. intros H. by apply array_includes_spec in H. }
    rewrite Hno.
    assert (Hyes : array_includes (selected ++ [x]) x = true).
    { apply array_includes_spec, elem_of_app. right. by left. }
    rewrite Hyes. rewrite List.filter_app. cbn. rewrite String.eqb_refl. cbn.
    rewrite app_nil_r. clear Hno Hyes.
    induction selected as [|a l IH]; [done|].
    apply not_elem_of_cons in Hx as [Hne Hx]. cbn.
    destruct (String.eqb_spec a x) as [->|_]; [done|]. cbn. by rewrite IH.
  - reflexivity.
Qed.

(** The state and label buttons of the filter bar do the same to the
    criteria: the state (the label) that is clicked is flipped in its list,
    an absent list counting as empty; every other entry of that list and
    each of the eight other fields of the criteria (labels or states, search
    query, repositories, assignees, authors, reviewers and the two date
    bounds) are left as they were. *)
Theorem filter_bar_toggles (filters : FilterOptions) (state : PRState) (labelName : string) :
  (exists states,
      f_states (handleStateChange filters state) = Some states
      /\ forall s, s ∈ states
                   <-> (s <> state /\ s ∈ default [] (f_states filters))
                       \/ (s = state /\ state ∉ default [] (f_states filters)))
  /\ (exists names,
        f_labels (handleLabelChange filters labelName) = Some names
        /\ forall l, l ∈ names
                     <-> (l <> labelName /\ l ∈ default [] (f_labels filters))
                         \/ (l = labelName /\ labelName ∉ default [] (f_labels filters)))
  /\ (f_labels (handleStateChange filters state) = f_labels filters
      /\ f_searchQuery (handleStateChange filters state) = f_searchQuery filters
      /\ f_repositories (handleStateChange filters state) = f_repositories filters
      /\ f_assignees (handleStateChange filters state) = f_assignees filters
      /\ f_authors (handleStateChange filters state) = f_authors filters
      /\ f_reviewers (handleStateChange filters state) = f_reviewers filters
      /\ f_dateFrom (handleStateChange filters state) = f_dateFrom filters
      /\ f_dateTo (handleStateChange filters state) = f_dateTo filters)
  /\ (f_states (handleLabelChange filters labelName) = f_states filters
      /\ f_searchQuery (handleLabelChange filters labelName) = f_searchQuery filters
      /\ f_repositories (handleLabelChange filters labelName) = f_repositories filters
      /\ f_assignees (handleLabelChange filters labelName) = f_assignees filters
      /\ f_authors (handleLabelChange filters labelName) = f_authors filters
      /\ f_reviewers (handleLabelChange filters labelName) = f_reviewers filters
      /\ f_dateFrom (handleLabelChange filters labelName) = f_dateFrom filters
      /\ f_dateTo (handleLabelChange filters labelName) = f_dateTo filters).
Proof.
  split; [|split; [|split]].
  - eexists. split; [reflexivity|]. intros s.
    apply (toggle_elem_of (fun a b => negb (@bool_decide (a = b) (decide_rel eq a b)))).
    intros a b. rewrite negb_true_iff, bool_decide_eq_false. done.
  - eexists. split; [reflexivity|]. intros l.
    apply (toggle_elem_of (fun a b => negb (String.eqb a b))). apply string_differs.
  - done.
  - done.
Qed.

(** "Clear all" does not clear the state filter: the criteria it installs
    (the same the page starts with) keep exactly the open records, and the
    count of active filters shown on the button is then one, not zero. *)
Theorem handleClearFilters_keeps_open (pullRequests : list PullRequest) (pr : PullRequest) :
  (pr ∈ filteredPullRequests toLowerCase handleClearFilters pullRequests
   <-> pr ∈ pullRequests /\ state pr = st_open)
  /\ activeFilterCount handleClearFilters = 1%nat.
Proof.
  split; [|reflexivity].
  unfold filteredPullRequests. rewrite elem_of_filter_bool.
  assert (Hkeeps : keeps toLowerCase handleClearFilters pr = true <-> state pr = st_open).
  { unfold keeps, passes_states, passes_repositories, passes_labels, passes_assignees,
      passes_authors, passes_reviewers, passes_searchQuery, passes_dateFrom, passes_dateTo.
    cbn. rewrite !andb_true_r, negb_involutive. rewrite array_includes_spec.
    apply list_elem_of_singleton. }
  by rewrite Hkeeps.
Qed.

End ToggleFacts.

Lemma toggle_selection_spec_witness :
  NoDup (Components.handleToggleRepository ["acme/widgets"; "acme/gadgets"] "acme/widgets")
  /\ Components.handleToggleRepository
       (Components.handleToggleRepository ["acme/gadgets"] "acme/widgets") "acme/widgets"
     = ["acme/gadgets"].
Proof.
  split.
  - apply (proj1 (proj2 (toggle_selection_spec ["acme/widgets"; "acme/gadgets"]
                           "acme/widgets"))).
    apply NoDup_ListNoDup. repeat constructor; cbn; intuition discriminate.
  - apply (proj1 (proj2 (proj2 (toggle_selection_spec ["acme/gadgets"] "acme/widgets")))).
    intros H. apply list_elem_of_singleton in H. discriminate H.
Defined.


(** ** More on grouping *)
Section GroupingShape.
Import JS Types Grouping.
Implicit Types (pullRequests : list PullRequest) (groupByLabels : list string)
  (availableLabels : list Label).

(** The groups follow the selection: one group per selected label, in the
    order of the selection and under its name. Every group and the
    remainder list input records in input order. A record without labels is
    always in the remainder, and with nothing selected the remainder is the
    whole input. *)
Theorem groups_follow_selection pullRequests groupByLabels availableLabels :
  label <$> groups pullRequests groupByLabels availableLabels = groupByLabels
  /\ (forall g, g ∈ groups pullRequests groupByLabels availableLabels ->
        sublist (Grouping.pullRequests g) pullRequests)
  /\ sublist (ungroupedPRs pullRequests groupByLabels availableLabels) pullRequests
  /\ (forall pr, pr ∈ pullRequests -> labels pr = [] ->
        pr ∈ ungroupedPRs pullRequests groupByLabels availableLabels)
  /\ ungroupedPRs pullRequests [] availableLabels = pullRequests.
Proof.
  split; [|split; [|split; [|split]]].
  - unfold groups. change (map ?f ?l) with (f <$> l).
    rewrite <- list_fmap_compose. cbn. apply list_fmap_id.
  - intros g Hg. unfold groups in Hg.
    apply list_elem_of_fmap in Hg as (G & -> & _). apply filter_bool_sublist.
  - apply filter_bool_sublist.
  - intros pr Hin Hnone. unfold ungroupedPRs. apply elem_of_filter_bool.
    split; [done|]. by rewrite Hnone.
  - unfold ungroupedPRs. apply filter_all_true. intros pr.
    apply negb_true_iff, not_true_iff_false. intros H.
    apply existsb_elem_of in H as (l & _ & H). discriminate H.
Qed.

Lemma find_first {A} (f : A -> bool) (before : list A) (x : A) (after : list A) :
  f x = true -> (forall y, y ∈ before -> f y = false) ->
  List.find f (before ++ x :: after) = Some x.
Proof.
  intros Hx. induction before as [|y before IH]; intros Hbefore; cbn.
  - by rewrite Hx.
  - rewrite (Hbefore y) by by left. apply IH. intros z Hz. apply Hbefore. by right.
Qed.

(** The colour of a group is never empty, and it is decided by the first
    available label whose name is exactly the selected label: the group has
    that label's colour when the colour is not empty, and the grey [6b7280]
    when it is empty; when no available label has that name (as for a prefix
    such as ["type"]) the group is grey. *)
Theorem group_colour pullRequests groupByLabels availableLabels (g : PRGroup) :
  g ∈ groups pullRequests groupByLabels availableLabels ->
  labelColor g <> EmptyString
  /\ (forall before l after,
        availableLabels = before ++ l :: after ->
        name l = label g ->
        (forall l', l' ∈ before -> name l' <> label g) ->
        (color l <> EmptyString -> labelColor g = color l)
        /\ (color l = EmptyString -> labelColor g = "6b7280"))
  /\ ((forall l, l ∈ availableLabels -> name l <> label g) -> labelColor g = "6b7280").
Proof.
  intros Hg. unfold groups in Hg.
  apply list_elem_of_fmap in Hg as (G & -> & _). cbn [labelColor label].
  split; [|split].
  - destruct (List.find _ availableLabels) as [l|]; [|done].
    by destruct (color l).
  - intros before l after -> Hname Hbefore.
    rewrite (find_first (fun l => String.eqb (name l) G) before l after).
    + destruct (color l) as [|a c]; cbn; split; done.
    + by apply String.eqb_eq.
    + intros l' Hl'. apply String.eqb_neq. by apply Hbefore.
  - intros Hnone.
    destruct (List.find _ availableLabels) as [l|] eqn:Hfind; [|done].
    apply find_some in Hfind as [Hin Heq]. apply String.eqb_eq in Heq.
    exfalso. by apply (Hnone l); [apply list_elem_of_In|].
Qed.

End GroupingShape.

Lemma group_colour_witness :
  exists g,
    Grouping.groups [Samples.pr_bug; Samples.pr_feature_urgent; Samples.pr_bare]
      ["type"; "urgent"] Samples.scenario_labels !! 1%nat = Some g
    /\ Grouping.labelColor g = "b60205".
Proof.
  eexists. split; [vm_compute; reflexivity|].
  apply (proj1 (proj2 (group_colour
                         [Samples.pr_bug; Samples.pr_feature_urgent; Samples.pr_bare]
                         ["type"; "urgent"] Samples.scenario_labels _
                         ltac:(vm_compute; apply list_elem_of_In; right; left; reflexivity)))
           [Samples.app_label 1 "type:bug" "d73a4a"; Samples.app_label 2 "type:feature" "a2eeef"]
           (Samples.app_label 3 "urgent" "b60205") []).
  - reflexivity.
  - reflexivity.
  - intros l' Hl'. apply list_elem_of_In in Hl'.
    destruct Hl' as [<- | [<- | []]]; discriminate.
  - discriminate.
Defined.


(** ** The grouping options and the groups *)
Section GroupingOptions.
Import JS JSArray Types Components.
Implicit Types (m : OptionMap) (availableLabels : list Label).



Lemma options_set_key_value m (k : string) (v : GroupingOption) :
  exists v', (k, v') ∈ options_set m k v.
Proof.
  induction m as [|[k0 v0] m [v' IH]]; cbn.
  - exists v. by left.
  - destruct (String.eqb_spec k0 k) as [->|Hne].
    + exists v. by left.
    + exists v'. by right.
Qed.








Variable localeCompare : string -> string -> JSNum.


End GroupingOptions.


(** ** Columns of the table *)

Section SortOfSorted.
Import JS JSArray.
Context {A : Type} (cmp : A -> A -> JSNum) (key : A -> Z).
Hypothesis cmp_key : forall x y, keeps_order (cmp x y) = (key x <=? key y).

Lemma sort_insert_least (x : A) (l : list A) :
  Forall (fun y => key x <= key y) l -> sort_insert cmp x l = x :: l.
Proof.
  destruct l as [|y l]; cbn; [done|]. intros Hall.
  apply Forall_cons in Hall as [Hxy _]. rewrite cmp_key.
  by destruct (Z.leb_spec (key x) (key y)); [|lia].
Qed.

(** Sorting leaves an array that is already in order as it is. *)
Lemma sort_of_sorted (l : list A) :
  StronglySorted (fun a b => key a <= key b) l -> sort cmp l = l.
Proof.
  induction 1 as [|x l Hs IH Hx]; cbn; [done|].
  fold (sort cmp l). rewrite IH. by apply sort_insert_least.
Qed.

End SortOfSorted.

Section ColumnFacts.
Import JS JSArray Types Columns.

Lemma StronglySorted_filter_bool {A} (R : A -> A -> Prop) (f : A -> bool) (l : list A) :
  StronglySorted R l -> StronglySorted R (List.filter f l).
Proof.
  induction 1 as [|x l Hs IH Hx]; cbn; [constructor|].
  destruct (f x); [|done]. constructor; [done|].
  apply Forall_forall. intros y Hy. apply elem_of_filter_bool in Hy as [Hy _].
  by apply (proj1 (Forall_forall _ _) Hx).
Qed.

Lemma order_cmp_key (a b : Column) :
  keeps_order (Num (column_order a - column_order b))
  = (column_order a <=? column_order b).
Proof.
  cbn. destruct (Z.leb_spec (column_order a - column_order b) 0),
                (Z.leb_spec (column_order a) (column_order b)); try done; lia.
Qed.

Lemma sorted_by_index (l : list Column) (n : nat) :
  (forall k col, l !! k = Some col -> column_order col = Z.of_nat (n + k)) ->
  StronglySorted (fun a b => column_order a <= column_order b) l.
Proof.
  revert n; induction l as [|x l IH]; intros n Hl; constructor.
  - apply (IH (S n)). intros k col Hk.
    rewrite (Hl (S k) col Hk). f_equal. lia.
  - apply Forall_forall. intros y Hy.
    apply list_elem_of_lookup in Hy as [k Hk].
    rewrite (Hl 0%nat x eq_refl), (Hl (S k) y Hk). lia.
Qed.

Lemma shouldHideRepoColumn_spec (prs : list PullRequest) :
  shouldHideRepoColumn prs = true
  <-> forall pr pr', pr ∈ prs -> pr' ∈ prs ->
        fullName (repository pr) = fullName (repository pr').
Proof.
  unfold shouldHideRepoColumn.
  change (map (fun pr => fullName (repository pr)) prs)
    with ((fun pr => fullName (repository pr)) <$> prs).
  set (names := (fun pr => fullName (repository pr)) <$> prs).
  rewrite Nat.leb_le. split.
  - intros Hsize pr pr' Hpr Hpr'.
    destruct (decide (fullName (repository pr) = fullName (repository pr')))
      as [|Hne]; [done|]. exfalso.
    assert (Hsub : ({[ fullName (repository pr) ]} ∪ {[ fullName (repository pr') ]} : gset string)
                   ⊆ list_to_set names).
    { intros x Hx. apply elem_of_list_to_set. subst names.
      apply elem_of_union in Hx as [Hx | Hx]; apply elem_of_singleton in Hx; subst x;
        by apply (list_elem_of_fmap_2 (fun pr => fullName (repository pr))). }
    apply subseteq_size in Hsub.
    rewrite size_union in Hsub by set_solver.
    rewrite !size_singleton in Hsub. lia.
  - intros Hall.
    destruct (set_choose_or_empty (list_to_set names : gset string)) as [[x Hx] | Hempty].
    + assert (Heq : (list_to_set names : gset string) = {[ x ]}).
      { apply leibniz_equiv. intros y. rewrite elem_of_singleton. split.
        - intros Hy. apply elem_of_list_to_set in Hx, Hy. subst names.
          apply list_elem_of_fmap in Hx as (pr & -> & Hpr).
          apply list_elem_of_fmap in Hy as (pr' & -> & Hpr').
          by apply Hall.
        - by intros ->. }
      rewrite Heq, size_singleton. lia.
    + apply size_empty_iff in Hempty. rewrite Hempty. lia.
Qed.

(** The columns of the table are the visible columns of the
    configuration, in ascending [order]; the repository column is left out
    exactly when all the pull requests shown belong to one repository (or
    there are none). Nothing is shown twice that the configuration does not
    hold twice. *)
Theorem visibleColumns_spec (prs : list PullRequest) (columns : list Column) :
  (forall col, col ∈ visibleColumns prs columns
     <-> col ∈ columns /\ column_visible col = true
         /\ ~ (column_id col = Some "repository"
               /\ forall pr pr', pr ∈ prs -> pr' ∈ prs ->
                    fullName (repository pr) = fullName (repository pr')))
  /\ StronglySorted (fun a b => column_order a <= column_order b)
       (visibleColumns prs columns)
  /\ exists shown, sublist shown columns /\ visibleColumns prs columns ≡ₚ shown.
Proof.
  unfold visibleColumns. split; [|split].
  - intros col. rewrite sort_Permutation, !elem_of_filter_bool.
    rewrite negb_true_iff, andb_false_iff, <- not_true_iff_false, <- not_true_iff_false.
    rewrite shouldHideRepoColumn_spec.
    assert (Hid : has_id col "repository" = true <-> column_id col = Some "repository").
    { unfold has_id. destruct (column_id col) as [j|]; [|done].
      rewrite String.eqb_eq. split; [by intros -> | by intros [= ->]]. }
    rewrite Hid. split.
    + intros [[Hin Hvis] Hnot]. repeat split; try done. intros [? ?]. by destruct Hnot.
    + intros (Hin & Hvis & Hnot). repeat split; try done.
      destruct (column_id col) as [j|]; [|by left].
      destruct (decide (j = "repository")) as [->|Hne].
      * right. intros Hall. by apply Hnot.
      * left. by intros [= ->].
  - apply (sort_sorted _ column_order (fun _ => True)).
    + intros a b _ _. apply order_cmp_key.
    + by apply Forall_forall.
  - eexists. split; [|apply sort_Permutation].
    etrans; apply filter_bool_sublist.
Qed.

(** Showing and hiding a column: toggling twice gives back the
    configuration; one toggle keeps the number of columns, every column's
    id and position, flips [visible] for the columns with the given id and
    leaves every other column as it is. *)
Theorem toggleColumnVisibility_spec (prev : list Column) (i : string) :
  toggleColumnVisibility (toggleColumnVisibility prev i) i = prev
  /\ length (toggleColumnVisibility prev i) = length prev
  /\ forall k col, prev !! k = Some col ->
       exists col', toggleColumnVisibility prev i !! k = Some col'
         /\ column_id col' = column_id col
         /\ column_order col' = column_order col
         /\ column_visible col'
            = (if has_id col i then negb (column_visible col) else column_visible col)
         /\ (has_id col i = false -> col' = col).
Proof.
  unfold toggleColumnVisibility. split; [|split].
  - rewrite map_map. rewrite <- (map_id prev) at 2. apply map_ext.
    intros [c|o]; unfold has_id; cbn; [|done].
    destruct (String.eqb (id c) i) eqn:E; cbn; rewrite E; [|done].
    rewrite negb_involutive. by destruct c.
  - apply length_map.
  - intros k col Hk.
    match goal with |- context [map ?f prev] => change (map f prev) with (f <$> prev) end.
    rewrite list_lookup_fmap, Hk. cbn [fmap option_fmap option_map].
    eexists. split; [done|].
    destruct col as [c|o]; unfold has_id; cbn; [|done].
    by destruct (String.eqb (id c) i).
Qed.

Lemma column_order_with_order (k : nat) (x : option Column) :
  column_order (with_order k x) = Z.of_nat k.
Proof. by destruct x as [[c|o]|]. Qed.

Lemma fmap_imap_with_order {B} (f : Column -> B) (g : option Column -> B)
    (l : list (option Column)) :
  (forall k x, f (with_order k x) = g x) ->
  f <$> imap with_order l = g <$> l.
Proof.
  intros Hfg. rewrite fmap_imap, <- imap_const.
  apply imap_ext. intros k x _. apply Hfg.
Qed.

(** What a reorder leaves of the columns, seen through any attribute [f]
    that [with_order] does not touch: at position [p] the moved element,
    and around it the other columns in their former order. *)
Lemma reorderColumns_shape {B} (f : Column -> B) (g : option Column -> B)
    (prev : list Column) (fromIndex toIndex : nat) :
  (forall k x, f (with_order k x) = g x) ->
  (forall c, g (Some c) = f c) ->
  let rest := delete fromIndex prev in
  let p := (toIndex `min` length rest)%nat in
  length (reorderColumns prev fromIndex toIndex) = S (length rest)
  /\ f <$> reorderColumns prev fromIndex toIndex !! p = Some (g (prev !! fromIndex))
  /\ f <$> delete p (reorderColumns prev fromIndex toIndex) = f <$> rest.
Proof.
  intros Hfg Hg rest p. unfold reorderColumns, splice_out, splice_in. fold rest.
  assert (Hp : length (take toIndex (Some <$> rest)) = p).
  { by rewrite length_take, length_fmap. }
  split; [|split].
  - rewrite length_imap, length_app, Hp. cbn [length].
    rewrite length_drop, length_fmap. subst p. lia.
  - rewrite <- list_lookup_fmap, (fmap_imap_with_order f g _ Hfg), list_lookup_fmap.
    rewrite <- Hp, list_lookup_middle by done. done.
  - rewrite list_fmap_delete, (fmap_imap_with_order f g _ Hfg).
    rewrite fmap_app, fmap_cons.
    rewrite <- Hp at 1. rewrite <- (length_fmap g (take toIndex (Some <$> rest))).
    rewrite delete_middle, <- fmap_app, take_drop, <- list_fmap_compose.
    apply list_fmap_ext. intros k c _. apply Hg.
Qed.

Lemma with_order_id k x : column_id (with_order k x) = x ≫= column_id.
Proof. by destruct x as [[c|o]|]. Qed.

Lemma with_order_visible k x :
  column_visible (with_order k x) = from_option column_visible false x.
Proof. by destruct x as [[c|o]|]. Qed.

(** Moving a column: for an index [fromIndex] inside the array, the
    result has as many columns as before; each column's [order] is its
    index; the moved column stands at index [toIndex], or at the end when
    [toIndex] is larger; and the remaining columns keep their former
    sequence. Ids and visibility travel with the columns. *)
Theorem reorderColumns_in_range (prev : list Column) (fromIndex toIndex : nat)
    (moved : Column) :
  prev !! fromIndex = Some moved ->
  let result := reorderColumns prev fromIndex toIndex in
  let p := (toIndex `min` (length prev - 1))%nat in
  length result = length prev
  /\ (forall k col, result !! k = Some col -> column_order col = Z.of_nat k)
  /\ (exists col, result !! p = Some col
                  /\ column_id col = column_id moved
                  /\ column_visible col = column_visible moved)
  /\ column_id <$> delete p result = column_id <$> delete fromIndex prev
  /\ column_visible <$> delete p result = column_visible <$> delete fromIndex prev.
Proof.
  intros Hmoved result p.
  pose proof (lookup_lt_Some _ _ _ Hmoved) as Hlt.
  assert (Hrest : length (delete fromIndex prev) = (length prev - 1)%nat).
  { rewrite length_delete; [done|]. by exists moved. }
  destruct (reorderColumns_shape column_id (fun x => x ≫= column_id)
              prev fromIndex toIndex with_order_id (fun _ => eq_refl))
    as (Hlen & Hat & Hothers).
  destruct (reorderColumns_shape column_visible (from_option column_visible false)
              prev fromIndex toIndex with_order_visible (fun _ => eq_refl))
    as (_ & Hat' & Hothers').
  rewrite Hrest in Hlen, Hat, Hat', Hothers, Hothers'. fold result p in Hlen, Hat, Hat', Hothers, Hothers'.
  rewrite Hmoved in Hat, Hat'. cbn [mbind option_bind from_option] in Hat, Hat'.
  split; [lia|]. split; [|split; [|by split]].
  - intros k col Hk. subst result. unfold reorderColumns, splice_out in Hk.
    rewrite list_lookup_imap in Hk.
    destruct (_ !! k) as [x|]; [|done]. cbn in Hk. injection Hk as <-.
    apply column_order_with_order.
  - destruct (result !! p) as [col|]; [|done].
    cbn in Hat, Hat'. exists col. split; [done|]. split; congruence.
Qed.

(** Moving what is not there: for an index [fromIndex] past the end of
    the array, the array grows by one element, which carries nothing but
    its [order] (no id, no label, not visible); it stands at index
    [toIndex], or at the end, and the columns keep their sequence around
    it. *)
Theorem reorderColumns_out_of_range (prev : list Column) (fromIndex toIndex : nat) :
  (length prev <= fromIndex)%nat ->
  let result := reorderColumns prev fromIndex toIndex in
  let p := (toIndex `min` length prev)%nat in
  length result = S (length prev)
  /\ result !! p = Some (OrderOnly (Z.of_nat p))
  /\ column_id <$> delete p result = column_id <$> prev
  /\ column_visible <$> delete p result = column_visible <$> prev.
Proof.
  intros Hge result p.
  assert (Hnone : prev !! fromIndex = None) by by apply lookup_ge_None.
  assert (Hrest : delete fromIndex prev = prev).
  { clear -Hge. revert fromIndex Hge.
    induction prev as [|x l IH]; intros [|n] Hn; cbn in *; try done; [lia|].
    f_equal. apply IH. lia. }
  destruct (reorderColumns_shape column_id (fun x => x ≫= column_id)
              prev fromIndex toIndex with_order_id (fun _ => eq_refl))
    as (Hlen & _ & Hothers).
  destruct (reorderColumns_shape column_visible (from_option column_visible false)
              prev fromIndex toIndex with_order_visible (fun _ => eq_refl))
    as (_ & _ & Hothers').
  rewrite Hrest in Hlen, Hothers, Hothers'. fold result p in Hlen, Hothers, Hothers'.
  split; [done|]. split; [|by split].
  subst result. unfold reorderColumns, splice_out, splice_in.
  rewrite Hnone, Hrest, list_lookup_imap.
  assert (Hp : length (take toIndex (Some <$> prev)) = p).
  { by rewrite length_take, length_fmap. }
  by rewrite list_lookup_middle by (symmetry; exact Hp).
Qed.

(** After any reorder the table needs no sorting: its columns are the
    visible ones of the new configuration, in the sequence of the
    configuration array. *)
Theorem visibleColumns_after_reorder (prs : list PullRequest) (prev : list Column)
    (fromIndex toIndex : nat) :
  visibleColumns prs (reorderColumns prev fromIndex toIndex)
  = List.filter
      (fun col => negb (has_id col "repository" && shouldHideRepoColumn prs))
      (List.filter column_visible (reorderColumns prev fromIndex toIndex)).
Proof.
  unfold visibleColumns.
  apply (sort_of_sorted _ column_order order_cmp_key).
  do 2 apply StronglySorted_filter_bool.
  apply (sorted_by_index _ 0). intros k col Hk.
  unfold reorderColumns, splice_out in Hk. rewrite list_lookup_imap in Hk.
  destruct (_ !! k) as [x|]; [|done]. cbn in Hk. injection Hk as <-.
  apply column_order_with_order.
Qed.

(** A row is marked as old exactly when its creation date is valid and
    lies at least seven times twenty-four hours before the present instant;
    a pull request with an invalid creation date is never marked. *)
Theorem isOld_spec (now : Z) (createdAt : Date) :
  isOld now createdAt = true
  <-> exists created, getTime createdAt = Some created
                      /\ created + 604800000 <= now.
Proof.
  unfold isOld, getAgeInDays. destruct (getTime createdAt) as [created|].
  - rewrite Z.leb_le. change (1000 * 60 * 60 * 24) with 86400000. split.
    + intros Hdays. exists created. split; [done|].
      pose proof (Z.mul_div_le (now - created) 86400000 eq_refl). lia.
    + intros (c & [= <-] & Hle). apply Z.div_le_lower_bound; lia.
  - split; [done | by intros (c & ? & _)].
Qed.

End ColumnFacts.

Lemma toggleColumnVisibility_spec_witness :
  exists col,
    Columns.toggleColumnVisibility Columns.DEFAULT_COLUMNS "labels" !! 5%nat = Some col
    /\ Columns.column_visible col = false.
Proof.
  destruct (proj2 (proj2 (toggleColumnVisibility_spec Columns.DEFAULT_COLUMNS "labels"))
              5%nat _ eq_refl) as (col & Hk & _ & _ & Hvis & _).
  exists col. split; [exact Hk | exact Hvis].
Defined.

Lemma reorderColumns_in_range_witness :
  length (Columns.reorderColumns Columns.DEFAULT_COLUMNS 0 2) = length Columns.DEFAULT_COLUMNS
  /\ Columns.column_id
       <$> delete 2%nat (Columns.reorderColumns Columns.DEFAULT_COLUMNS 0 2)
     = Columns.column_id <$> delete 0%nat Columns.DEFAULT_COLUMNS.
Proof.
  split.
  - exact (proj1 (reorderColumns_in_range Columns.DEFAULT_COLUMNS 0 2 _ eq_refl)).
  - exact (proj1 (proj2 (proj2 (proj2
             (reorderColumns_in_range Columns.DEFAULT_COLUMNS 0 2 _ eq_refl))))).
Defined.

Lemma reorderColumns_out_of_range_witness :
  Columns.reorderColumns (take 2 Columns.DEFAULT_COLUMNS) 5 0 !! 0%nat
  = Some (Columns.OrderOnly 0).
Proof.
  apply (proj1 (proj2 (reorderColumns_out_of_range (take 2 Columns.DEFAULT_COLUMNS) 5 0
                         ltac:(cbn; lia)))).
Defined.
